(** * ProtobankBankC auth-service: credential lifecycle and request admission

    A shallow embedding of the Go sources of the auth service
    (internal/utils/password.go, internal/utils/jwt.go,
    internal/middleware/rate_limit.go, internal/services/auth_service.go,
    pkg/errors/errors.go) together with the properties their
    specification states about them.

    Conventions.
    - A Go [string] is a sequence of bytes: Rocq's [string].  [len(s)] is
      [String.length s].
    - A Go [int], [time.Time] and [time.Duration] are [Z]; instants and
      durations count nanoseconds, as [time.Duration] does.  Instants and
      their differences are assumed to stay inside the 64-bit range, so
      no saturation of [Time.Sub] is modelled; the one product of
      durations, in [cleanup], wraps around as an [int64] does.
    - [time.Now()] is an explicit argument [now] of every function that
      reads the clock.
    - A function returning [(T, error)] returns a [result]. *)

From Stdlib Require Import ZArith String Ascii List Bool Lia.
From stdpp Require Import base option gmap strings list fin_maps.

Local Open Scope string_scope.
Local Open Scope Z_scope.

(** ** Results *)

Inductive result (E A : Type) : Type :=
| Ok (a : A)
| Fail (e : E).
Arguments Ok {E A} a.
Arguments Fail {E A} e.

(** ** Bytes and strings, as the Go standard library treats them *)

Module strings.

Definition byte_in (lo hi : N) (c : ascii) : bool :=
  ((lo <=? N_of_ascii c) && (N_of_ascii c <=? hi))%N.

Definition isUpper : ascii -> bool := byte_in 65 90.
Definition isLower : ascii -> bool := byte_in 97 122.
Definition isDigit : ascii -> bool := byte_in 48 57.

(** [for _, char := range s { if p(char) { found = true; break } }].
    The predicates used below only accept ASCII code points; a byte of a
    multi-byte UTF-8 sequence is at least 128 and an invalid byte decodes
    to U+FFFD, so ranging over runes and over bytes agree here. *)
Fixpoint any (p : ascii -> bool) (s : string) : bool :=
  match s with
  | EmptyString => false
  | String c s' => p c || any p s'
  end.

(** [strings.ContainsRune(chars, c)] for an ASCII [c]. *)
Definition ContainsRune (chars : string) (c : ascii) : bool :=
  any (Ascii.eqb c) chars.

Definition lowerByte (c : ascii) : ascii :=
  if isUpper c then ascii_of_N (N_of_ascii c + 32) else c.

(** [strings.ToLower] on the ASCII letters.  Outside ASCII Go lower-cases
    by the Unicode tables; the deny-lists below hold ASCII keys only.
    For e-mail addresses see [unicode.ToLower]. *)
Fixpoint ToLower (s : string) : string :=
  match s with
  | EmptyString => EmptyString
  | String c s' => String (lowerByte c) (ToLower s')
  end.

Fixpoint HasPrefix (s p : string) : bool :=
  match p, s with
  | EmptyString, _ => true
  | String a p', String b s' => Ascii.eqb a b && HasPrefix s' p'
  | String _ _, EmptyString => false
  end.

(** [strings.Contains(s, sub)] *)
Fixpoint Contains (s sub : string) : bool :=
  HasPrefix s sub ||
  match s with
  | EmptyString => false
  | String _ s' => Contains s' sub
  end.

Definition isEmpty (s : string) : bool :=
  match s with EmptyString => true | _ => false end.

(** The ASCII white space [strings.TrimSpace] cuts: tab, line feed,
    vertical tab, form feed, carriage return and space.  For e-mail
    addresses see [unicode.TrimSpace]. *)
Definition isSpace (c : ascii) : bool :=
  byte_in 9 13 c || byte_in 32 32 c.

Fixpoint trimLeft (s : string) : string :=
  match s with
  | String c s' => if isSpace c then trimLeft s' else s
  | EmptyString => EmptyString
  end.

Fixpoint trimRight (s : string) : string :=
  match s with
  | EmptyString => EmptyString
  | String c s' =>
      let r := trimRight s' in
      if isSpace c && isEmpty r then EmptyString else String c r
  end.

Definition TrimSpace (s : string) : string := trimRight (trimLeft s).

Definition len (s : string) : Z := Z.of_nat (String.length s).

(** The double quote, which a literal here does not hold. *)
Definition dquote : ascii := ascii_of_N 34.

End strings.

(** ** UTF-8, as package unicode/utf8 decodes it *)

Module utf8.
Import strings.

(** [c < utf8.RuneSelf]: the top bit of the byte is clear. *)
Definition isASCII (c : ascii) : bool :=
  match c with Ascii _ _ _ _ _ _ _ top => negb top end.

(** A byte 10xxxxxx. *)
Definition continuation : ascii -> bool := byte_in 128 191.

(** The valid encodings of two, three and four bytes: no overlong form,
    no surrogate half, nothing above U+10FFFF. *)
Definition valid2 (a b : ascii) : bool :=
  byte_in 194 223 a && continuation b.

Definition valid3 (a b c : ascii) : bool :=
  (byte_in 224 224 a && byte_in 160 191 b
   || byte_in 225 236 a && continuation b
   || byte_in 237 237 a && byte_in 128 159 b
   || byte_in 238 239 a && continuation b)
  && continuation c.

Definition valid4 (a b c d : ascii) : bool :=
  (byte_in 240 240 a && byte_in 144 191 b
   || byte_in 241 243 a && continuation b
   || byte_in 244 244 a && byte_in 128 143 b)
  && continuation c && continuation d.

(** The encoding of [utf8.RuneError], U+FFFD: the bytes EF BF BD. *)
Definition RuneError : string :=
  String (ascii_of_N 239)
    (String (ascii_of_N 191) (String (ascii_of_N 189) EmptyString)).

End utf8.

(** ** Package strings beyond ASCII

    [strings.ToLower] maps every letter by the Unicode tables and
    [strings.TrimSpace] cuts every white-space code point, U+00A0 and
    U+3000 among them.  The service applies both to e-mail addresses,
    which need not be ASCII; for these the two functions are taken as
    they are, with the facts about them stated here.  On ASCII text they
    are [strings.ToLower] and [strings.TrimSpace] above. *)

Module unicode.

Definition isASCII (s : string) : bool :=
  negb (strings.any (fun c => negb (utf8.isASCII c)) s).

Class Strings := {
  ToLower : string -> string;
  TrimSpace : string -> string;
  (** Every code point, and every invalid byte, is mapped to a code
      point. *)
  ToLower_not_empty :
    forall s, s <> EmptyString -> ToLower s <> EmptyString;
  ToLower_ASCII :
    forall s, isASCII s = true -> ToLower s = strings.ToLower s;
  TrimSpace_ASCII :
    forall s, isASCII s = true -> TrimSpace s = strings.TrimSpace s
}.

End unicode.

(** ** encoding/json on a string value

    [json.Marshal] writes a string with every byte that does not begin a
    valid UTF-8 encoding replaced by U+FFFD; its escapes are undone by
    [json.Unmarshal].  So this is the string read back from the text
    written for [s]: [s] itself exactly when [s] is valid UTF-8. *)

Module json.
Import strings utf8.

Fixpoint roundTrip (s : string) : string :=
  match s with
  | EmptyString => EmptyString
  | String a s1 =>
      if isASCII a then String a (roundTrip s1)
      else
        match s1 with
        | String b s2 =>
            if valid2 a b then String a (String b (roundTrip s2))
            else
              match s2 with
              | String c s3 =>
                  if valid3 a b c then
                    String a (String b (String c (roundTrip s3)))
                  else
                    match s3 with
                    | String d s4 =>
                        if valid4 a b c d then
                          String a (String b (String c (String d
                            (roundTrip s4))))
                        else RuneError +:+ roundTrip s1
                    | EmptyString => RuneError +:+ roundTrip s1
                    end
              | EmptyString => RuneError +:+ roundTrip s1
              end
        | EmptyString => RuneError
        end
  end.

End json.

(** ** crypto/sha256 and crypto/sha512

    The digests of FIPS 180-4 on byte strings; words are [Z] below
    [2 ^ wordBits]. *)

Module sha2.

Definition bytesOf (s : string) : list Z :=
  map (fun c => Z.of_N (N_of_ascii c)) (list_ascii_of_string s).

Definition stringOf (bs : list Z) : string :=
  string_of_list_ascii (map (fun b => ascii_of_N (Z.to_N b)) bs).

(** The [n] bytes of [x], most significant first. *)
Fixpoint bigEndian (n : nat) (x : Z) : list Z :=
  match n with
  | O => []
  | S n' => bigEndian n' (x / 256) ++ [x mod 256]
  end.

Definition fromBigEndian (bs : list Z) : Z :=
  fold_left (fun acc b => acc * 256 + b) bs 0.

(** [bs] cut into pieces of [n] bytes, at most [count] of them. *)
Fixpoint chunks (count : nat) (n : nat) (bs : list Z) : list (list Z) :=
  match count, bs with
  | _, [] => []
  | O, _ => []
  | S count', _ => firstn n bs :: chunks count' n (skipn n bs)
  end.

(** What sets the members of the family apart. *)
Record variant := {
  wordBits : Z;
  rounds : nat;
  Sigma0 : Z * Z * Z;
  Sigma1 : Z * Z * Z;
  sigma0 : Z * Z * Z;
  sigma1 : Z * Z * Z;
  K : list Z;
  IV : list Z;
  Size : nat
}.

Section Digest.
Variable v : variant.

Definition wrap (x : Z) : Z := x mod 2 ^ wordBits v.

Definition rotr (x n : Z) : Z :=
  Z.lor (Z.shiftr x n) (wrap (Z.shiftl x (wordBits v - n))).

Definition rot3 (r : Z * Z * Z) (x : Z) : Z :=
  let '(a, b, c) := r in Z.lxor (Z.lxor (rotr x a) (rotr x b)) (rotr x c).

Definition rot2shr (r : Z * Z * Z) (x : Z) : Z :=
  let '(a, b, c) := r in
  Z.lxor (Z.lxor (rotr x a) (rotr x b)) (Z.shiftr x c).

Definition wordBytes : nat := Z.to_nat (wordBits v / 8).

(** The block of the hash, in bytes: sixteen words. *)
Definition BlockSize : nat := (16 * wordBytes)%nat.

(** The message followed by the byte 0x80, zero bytes and the length in
    bits, to a whole number of blocks. *)
Definition pad (msg : list Z) : list Z :=
  let lenBytes := (2 * wordBytes)%nat in
  let used := (length msg + 1 + lenBytes)%nat in
  let zeros := ((BlockSize - used mod BlockSize) mod BlockSize)%nat in
  msg ++ [128] ++ repeat 0 zeros
      ++ bigEndian lenBytes (8 * Z.of_nat (length msg)).

(** The message schedule, latest word first. *)
Fixpoint schedule (n : nat) (ws : list Z) : list Z :=
  match n with
  | O => ws
  | S n' =>
      let x := wrap (rot2shr (sigma1 v) (nth 1 ws 0) + nth 6 ws 0
                     + rot2shr (sigma0 v) (nth 14 ws 0) + nth 15 ws 0) in
      schedule n' (x :: ws)
  end.

Definition state := (Z * Z * Z * Z * Z * Z * Z * Z)%type.

Definition round (s : state) (kw : Z * Z) : state :=
  let '(a, b, c, d, e, f, g, h) := s in
  let ch := Z.lxor (Z.land e f) (Z.land (Z.lxor e (2 ^ wordBits v - 1)) g) in
  let maj := Z.lxor (Z.lxor (Z.land a b) (Z.land a c)) (Z.land b c) in
  let t1 := wrap (h + rot3 (Sigma1 v) e + ch + fst kw + snd kw) in
  let t2 := wrap (rot3 (Sigma0 v) a + maj) in
  (wrap (t1 + t2), a, b, c, wrap (d + t1), e, f, g).

Definition toState (l : list Z) : state :=
  (nth 0 l 0, nth 1 l 0, nth 2 l 0, nth 3 l 0,
   nth 4 l 0, nth 5 l 0, nth 6 l 0, nth 7 l 0).

Definition ofState (s : state) : list Z :=
  let '(a, b, c, d, e, f, g, h) := s in [a; b; c; d; e; f; g; h].

Definition block (h : list Z) (blk : list Z) : list Z :=
  let ws := map fromBigEndian (chunks 16 wordBytes blk) in
  let sched := rev (schedule (rounds v - 16) (rev ws)) in
  let s := fold_left round (combine (K v) sched) (toState h) in
  map (fun p => wrap (fst p + snd p)) (combine h (ofState s)).

(** The digest of [msg]. *)
Definition Sum (msg : string) : string :=
  let blocks :=
    chunks (String.length msg + 1) BlockSize (pad (bytesOf msg)) in
  let h := fold_left block blocks (IV v) in
  stringOf (firstn (Size v) (flat_map (bigEndian wordBytes) h)).

End Digest.

(** The constants are fractional parts of roots of the first primes:
    the round constants of cube roots, the initial values of square
    roots. *)

Definition isPrime (n : Z) : bool :=
  forallb (fun d => negb (n mod d =? 0))
          (List.map Z.of_nat (seq 2 (Z.to_nat n - 2))).

(** The first eighty primes: those below 410. *)
Definition primes : list Z :=
  List.filter isPrime (List.map Z.of_nat (seq 2 408)).

(** The largest [x] with [x ^ k <= n] between [lo] and [hi], by
    bisection. *)
Fixpoint root (steps : nat) (k lo hi n : Z) : Z :=
  match steps with
  | O => lo
  | S steps' =>
      let mid := (lo + hi) / 2 in
      if mid ^ k <=? n then root steps' k mid hi n
      else root steps' k lo mid n
  end.

(** The first [bits] bits of the fractional part of the [k]-th root of
    [p], for [p] below 512. *)
Definition fraction (k bits p : Z) : Z :=
  root (Z.to_nat bits + 4) k 0 (2 ^ (bits + 4)) (p * 2 ^ (k * bits))
  mod 2 ^ bits.

Definition K256 : list Z :=
  Eval vm_compute in List.map (fraction 3 32) (firstn 64 primes).

Definition K512 : list Z :=
  Eval vm_compute in List.map (fraction 3 64) (firstn 80 primes).

Definition IV256 : list Z :=
  Eval vm_compute in List.map (fraction 2 32) (firstn 8 primes).

Definition IV384 : list Z :=
  Eval vm_compute in List.map (fraction 2 64) (firstn 8 (skipn 8 primes)).

Definition IV512 : list Z :=
  Eval vm_compute in List.map (fraction 2 64) (firstn 8 primes).

Definition SHA256 : variant := {|
  wordBits := 32; rounds := 64;
  Sigma0 := (2, 13, 22); Sigma1 := (6, 11, 25);
  sigma0 := (7, 18, 3); sigma1 := (17, 19, 10);
  K := K256; IV := IV256; Size := 32 |}.

Definition SHA384 : variant := {|
  wordBits := 64; rounds := 80;
  Sigma0 := (28, 34, 39); Sigma1 := (14, 18, 41);
  sigma0 := (1, 8, 7); sigma1 := (19, 61, 6);
  K := K512; IV := IV384; Size := 48 |}.

Definition SHA512 : variant := {|
  wordBits := 64; rounds := 80;
  Sigma0 := (28, 34, 39); Sigma1 := (14, 18, 41);
  sigma0 := (1, 8, 7); sigma1 := (19, 61, 6);
  K := K512; IV := IV512; Size := 64 |}.

(** A digest in hexadecimal digits. *)
Definition hexDigit (n : Z) : ascii :=
  nth (Z.to_nat n) (list_ascii_of_string "0123456789abcdef") Ascii.zero.

Definition hex (s : string) : string :=
  string_of_list_ascii
    (flat_map (fun b => [hexDigit (b / 16); hexDigit (b mod 16)])
              (bytesOf s)).

End sha2.

(** ** crypto/hmac: the key of the MAC

    [hmac.New(h, key)] hashes a key longer than one block of [h] and
    fills the key with zero bytes to a whole block; the MAC depends on the
    key through this block only. *)

Module hmac.

Definition zeros (n : nat) : string :=
  string_of_list_ascii (repeat Ascii.zero n).

Definition blockKey (h : sha2.variant) (key : string) : string :=
  let key :=
    if (sha2.BlockSize h <? String.length key)%nat then sha2.Sum h key
    else key in
  key +:+ zeros (sha2.BlockSize h - String.length key).

End hmac.

(** A Go [map[string]bool] indexed at a key: the zero value [false] when
    the key is absent. *)
Definition index_bool (m : gmap string bool) (k : string) : bool :=
  default false (m !! k).

(** ** internal/utils/password.go *)

Module utils_password.
Import strings.

Definition commonPasswords : gmap string bool :=
  list_to_map
    [("password", true); ("password123", true); ("123456", true);
     ("12345678", true); ("qwerty", true); ("qwerty123", true);
     ("abc123", true); ("monkey", true); ("letmein", true);
     ("welcome", true); ("admin", true); ("admin123", true)].

Definition specialChars : string := "!@#$%^&*()_+-=[]{}|;:,.<>?".

Definition errTooShort := "password must be at least 8 characters long".
Definition errTooLong := "password too long: maximum 72 bytes".
Definition errNoUpper := "password must contain at least one uppercase letter".
Definition errNoLower := "password must contain at least one lowercase letter".
Definition errNoNumber := "password must contain at least one number".
Definition errNoSpecial := "password must contain at least one special character".
Definition errCommon :=
  "password is too common, please choose a more unique password".

Definition hasUpper (password : string) : bool := any isUpper password.
Definition hasLower (password : string) : bool := any isLower password.
Definition hasNumber (password : string) : bool := any isDigit password.
Definition hasSpecial (password : string) : bool :=
  any (ContainsRune specialChars) password.

(** [ValidatePasswordStrength]: [None] is the nil error. *)
Definition ValidatePasswordStrength (password : string) : option string :=
  if len password <? 8 then Some errTooShort
  else if len password >? 72 then Some errTooLong
  else if negb (hasUpper password) then Some errNoUpper
  else if negb (hasLower password) then Some errNoLower
  else if negb (hasNumber password) then Some errNoNumber
  else if negb (hasSpecial password) then Some errNoSpecial
  else if index_bool commonPasswords (ToLower password) then Some errCommon
  else None.

End utils_password.


(** ** The clock: package time *)

Module gotime.

(** Nanoseconds since the Unix epoch. *)
Definition Time := Z.
(** Nanoseconds. *)
Definition Duration := Z.

Definition Nanosecond : Duration := 1.
Definition Millisecond : Duration := 1000000.
Definition Second : Duration := 1000000000.
Definition Minute : Duration := 60 * Second.
Definition Hour : Duration := 60 * Minute.

Definition Add (t : Time) (d : Duration) : Time := t + d.
Definition Sub (t u : Time) : Duration := t - u.
Definition Before (t u : Time) : bool := t <? u.

(** [t.Truncate(d)]: [t] rounded down to a multiple of [d]; [t] itself
    when [d <= 0]. *)
Definition Truncate (t : Time) (d : Duration) : Time :=
  if d <=? 0 then t else t - t mod d.

(** *** [float64], for [Duration.Seconds] *)

(** The integer nearest to [n / d], the even one of two equally near. *)
Definition roundHalfEven (n d : Z) : Z :=
  let q := n / d in
  let r := n mod d in
  if 2 * r <? d then q
  else if d <? 2 * r then q + 1
  else if Z.even q then q else q + 1.

(** [n / (d * 2 ^ e)] as a fraction of integers, for any sign of [e]. *)
Definition scaled (n d e : Z) : Z * Z :=
  if 0 <=? e then (n, d * 2 ^ e) else (n * 2 ^ (- e), d).

(** The [float64] nearest to [n / d], for [0 <= n] and [0 < d], as a
    mantissa [m] of 53 bits and an exponent [e]: the value [m * 2 ^ e]. *)
Definition float64 (n d : Z) : Z * Z :=
  if n =? 0 then (0, 0)
  else
    let k := Z.log2 n - Z.log2 d in
    let '(n1, d1) := scaled n d k in
    let e := if d1 <=? n1 then k - 52 else k - 53 in
    let '(n2, d2) := scaled n d e in
    (roundHalfEven n2 d2, e).

(** [int(d.Seconds())].  [Seconds] is
    [float64(d / Second) + float64(d % Second) / 1e9]: the quotient and
    the sum are each rounded to the nearest [float64], and the conversion
    to [int] cuts the fraction.  The sign of [d] carries through. *)
Definition Seconds_int (d : Duration) : Z :=
  let sec := Z.abs d / Second in
  let nsec := Z.abs d mod Second in
  let '(m, e) := float64 nsec Second in
  let '(n1, d1) := scaled m 1 (- e) in
  let '(m', e') := float64 (sec * d1 + n1) d1 in
  let '(n2, d2) := scaled m' 1 (- e') in
  Z.sgn d * (n2 / d2).

(** The largest [Duration]: [math.MaxInt64] nanoseconds. *)
Definition maxDuration : Duration := 2 ^ 63 - 1.

(** A product of [Duration]s as the [int64] it is kept in. *)
Definition int64 (x : Z) : Z := (x + 2 ^ 63) mod 2 ^ 64 - 2 ^ 63.

(** *** The calendar, in UTC (proleptic Gregorian, as package time) *)

Definition Day : Duration := 24 * Hour.

(** Days from 1970-01-01 to the civil date [y]-[m]-[d]. *)
Definition daysFromCivil (y m d : Z) : Z :=
  let y' := if m <=? 2 then y - 1 else y in
  let era := y' / 400 in
  let yoe := y' - era * 400 in
  let doy := (153 * (if m >? 2 then m - 3 else m + 9) + 2) / 5 + d - 1 in
  let doe := yoe * 365 + yoe / 4 - yoe / 100 + doy in
  era * 146097 + doe - 719468.

(** The civil year of the day [z] days after 1970-01-01. *)
Definition yearOfDays (z : Z) : Z :=
  let z' := z + 719468 in
  let era := z' / 146097 in
  let doe := z' - era * 146097 in
  let yoe := (doe - doe / 1460 + doe / 36524 - doe / 146096) / 365 in
  let doy := doe - (365 * yoe + yoe / 4 - yoe / 100) in
  let mp := (5 * doy + 2) / 153 in
  let m := if mp <? 10 then mp + 3 else mp - 9 in
  yoe + era * 400 + (if m <=? 2 then 1 else 0).

(** [time.Date(y, m, d, 0, 0, 0, 0, time.UTC)] *)
Definition Date (y m d : Z) : Time := daysFromCivil y m d * Day.

Definition daysOf (t : Time) : Z := t / Day.

(** [t.Year()] *)
Definition Year (t : Time) : Z := yearOfDays (daysOf t).

(** [t.YearDay()]: 1 to 365, or to 366 in a leap year. *)
Definition YearDay (t : Time) : Z :=
  daysOf t - daysFromCivil (Year t) 1 1 + 1.

(** [t.IsZero()]: the zero [Time] is January 1 of year 1, 00:00 UTC. *)
Definition IsZero (t : Time) : bool := t =? Date 1 1 1.

End gotime.

(** ** github.com/golang-jwt/jwt/v5, as far as the service uses it

    The library is not part of the repository.  Its behaviour is modelled
    as follows.
    - A compact token is kept as its three decoded segments; the base64url
      encoding is injective and is not spelled out, and the claims of a
      payload are those [json.Unmarshal] reads from it ([Decoded]).  A
      string the parser reads no token from is [Unparseable], with the
      text of the error the parser reports for it.
    - The MAC is symbolic: the signature made over a header and a payload
      is the term [MAC] of the method, of the key block of crypto/hmac and
      of the payload, so two signatures agree exactly when method, key
      block and payload agree (the usual idealisation of an HMAC as
      collision-free; keys with one key block give one MAC, as they do
      in crypto/hmac).
    - A [NumericDate] is cut to [TimePrecision], one second by default, when
      it is made, and it is serialised as that whole number of seconds.
    - The parser checks the signature first and the time claims after it:
      [exp] must be strictly after [now], [nbf] at or before [now]; [iat] is
      not checked unless asked for. *)

Module jwt.

Definition TimePrecision : gotime.Duration := gotime.Second.

Definition NumericDate := gotime.Time.

Definition NewNumericDate (t : gotime.Time) : NumericDate :=
  gotime.Truncate t TimePrecision.

(** The registered claims the service sets; the others keep their zero
    value and are left out of the payload. *)
Record RegisteredClaims := {
  ExpiresAt : option NumericDate;
  NotBefore : option NumericDate;
  IssuedAt : option NumericDate
}.

Class Claims (C : Type) := {
  GetExpirationTime : C -> option NumericDate;
  GetNotBefore : C -> option NumericDate;
  GetIssuedAt : C -> option NumericDate;
  (** The claims read back from the payload written for the claims. *)
  Decoded : C -> C
}.

Inductive SigningMethod :=
| SigningMethodHS256
| SigningMethodHS384
| SigningMethodHS512
| SigningMethodOther (alg : string).

(** The type assertion of [token.Method] to the HMAC methods succeeds. *)
Definition isHMAC (m : SigningMethod) : bool :=
  match m with SigningMethodOther _ => false | _ => true end.

(** [m.Alg()], the value of the header field alg. *)
Definition Alg (m : SigningMethod) : string :=
  match m with
  | SigningMethodHS256 => "HS256"
  | SigningMethodHS384 => "HS384"
  | SigningMethodHS512 => "HS512"
  | SigningMethodOther alg => alg
  end.

(** The key block of the MAC of an HMAC method; the other methods make
    no MAC. *)
Definition hmacKey (m : SigningMethod) (key : string) : string :=
  match m with
  | SigningMethodHS256 => hmac.blockKey sha2.SHA256 key
  | SigningMethodHS384 => hmac.blockKey sha2.SHA384 key
  | SigningMethodHS512 => hmac.blockKey sha2.SHA512 key
  | SigningMethodOther _ => key
  end.

Inductive Signature (C : Type) :=
| MAC (alg : SigningMethod) (keyBlock : string) (payload : C)
| OtherSignature (raw : string).
Arguments MAC {C} alg keyBlock payload.
Arguments OtherSignature {C} raw.

(** The MAC made with [key] by the method [alg] over a header naming
    [alg] and the payload. *)
Definition HMACSum {C} (key : string) (alg : SigningMethod) (payload : C)
    : Signature C :=
  MAC alg (hmacKey alg key) payload.

Inductive tokenString (C : Type) :=
| Compact (alg : SigningMethod) (payload : C) (sig : Signature C)
| Unparseable (raw : string) (report : string).
Arguments Compact {C} alg payload sig.
Arguments Unparseable {C} raw report.

(** The token string is the empty string. *)
Definition isEmpty {C} (t : tokenString C) : bool :=
  match t with
  | Unparseable raw _ => strings.isEmpty raw
  | Compact _ _ _ => false
  end.

Inductive ClaimError :=
| ErrTokenExpired
| ErrTokenNotValidYet.

Inductive Error :=
| ErrParse (report : string)
| ErrTokenUnverifiable (cause : string)
| ErrTokenSignatureInvalid
| ErrTokenInvalidClaims (errs : list ClaimError).

Definition ClaimErrorString (e : ClaimError) : string :=
  match e with
  | ErrTokenExpired => "token is expired"
  | ErrTokenNotValidYet => "token is not valid yet"
  end.

Fixpoint joinErrors (errs : list ClaimError) : string :=
  match errs with
  | [] => EmptyString
  | [e] => ClaimErrorString e
  | e :: rest => ClaimErrorString e +:+ ", " +:+ joinErrors rest
  end.

(** [err.Error()]; for a string that is no token, the report of the
    parser. *)
Definition ErrorString (e : Error) : string :=
  match e with
  | ErrParse report => report
  | ErrTokenUnverifiable cause =>
      "token is unverifiable: error while executing keyfunc: " +:+ cause
  | ErrTokenSignatureInvalid =>
      "token signature is invalid: signature is invalid"
  | ErrTokenInvalidClaims errs =>
      "token has invalid claims: " +:+ joinErrors errs
  end.

Section Parser.
Context {C : Type} `{Claims C} `{EqDecision C}.

#[local] Instance SigningMethod_eq_dec : EqDecision SigningMethod.
Proof. solve_decision. Defined.

#[local] Instance Signature_eq_dec : EqDecision (Signature C).
Proof. solve_decision. Defined.

(** [jwt.NewWithClaims(method, claims).SignedString(key)] *)
Definition SignedString (method : SigningMethod) (claims : C)
    (key : string) : tokenString C :=
  Compact method (Decoded claims)
    (HMACSum key method (Decoded claims)).

(** [method.Verify(signingString, sig, key)] for an HMAC method. *)
Definition Verify (method : SigningMethod) (claims : C)
    (sig : Signature C) (key : string) : bool :=
  bool_decide (sig = HMACSum key method claims).

Definition verifyExpiresAt (claims : C) (now : gotime.Time)
    : list ClaimError :=
  match GetExpirationTime claims with
  | None => []
  | Some exp => if gotime.Before now exp then [] else [ErrTokenExpired]
  end.

Definition verifyNotBefore (claims : C) (now : gotime.Time)
    : list ClaimError :=
  match GetNotBefore claims with
  | None => []
  | Some nbf =>
      if negb (gotime.Before now nbf) then [] else [ErrTokenNotValidYet]
  end.

(** [Validator.Validate] *)
Definition Validate (claims : C) (now : gotime.Time) : list ClaimError :=
  verifyExpiresAt claims now ++ verifyNotBefore claims now.

(** [jwt.ParseWithClaims(tokenString, &C{}, keyFunc)]; a parsed and
    valid token is returned as its claims. *)
Definition ParseWithClaims (t : tokenString C)
    (keyFunc : SigningMethod -> result string string)
    (now : gotime.Time) : result Error C :=
  match t with
  | Unparseable _ report => Fail (ErrParse report)
  | Compact method claims sig =>
      match keyFunc method with
      | Fail cause => Fail (ErrTokenUnverifiable cause)
      | Ok key =>
          if negb (Verify method claims sig key)
          then Fail ErrTokenSignatureInvalid
          else
            match Validate claims now with
            | [] => Ok claims
            | errs => Fail (ErrTokenInvalidClaims errs)
            end
      end
  end.

End Parser.

End jwt.

(** ** internal/utils/jwt.go *)

Module utils_jwt.

Record TokenClaims := {
  UserID : string;
  Email : string;
  TokenType : string
}.

(** [customClaims]: the three fields of the service and the embedded
    [jwt.RegisteredClaims]. *)
Record customClaims := {
  c_UserID : string;
  c_Email : string;
  c_TokenType : string;
  c_Registered : jwt.RegisteredClaims
}.

#[export] Instance RegisteredClaims_eq_dec : EqDecision jwt.RegisteredClaims.
Proof. solve_decision. Defined.

#[export] Instance customClaims_eq_dec : EqDecision customClaims.
Proof. solve_decision. Defined.

#[export] Instance customClaims_Claims : jwt.Claims customClaims := {
  jwt.GetExpirationTime c := jwt.ExpiresAt (c_Registered c);
  jwt.GetNotBefore c := jwt.NotBefore (c_Registered c);
  jwt.GetIssuedAt c := jwt.IssuedAt (c_Registered c);
  jwt.Decoded c := {|
    c_UserID := json.roundTrip (c_UserID c);
    c_Email := json.roundTrip (c_Email c);
    c_TokenType := json.roundTrip (c_TokenType c);
    c_Registered := c_Registered c
  |}
}.

Definition token := jwt.tokenString customClaims.

(** [generateToken], reading the clock as [now]. *)
Definition generateToken (userID email tokenType : string)
    (expiry : gotime.Duration) (secret : string) (now : gotime.Time)
    : result string token :=
  if strings.isEmpty userID then Fail "user ID cannot be empty"
  else if strings.isEmpty email then Fail "email cannot be empty"
  else if strings.isEmpty secret then Fail "secret cannot be empty"
  else if expiry <=? 0 then Fail "expiry must be positive"
  else
    let claims := {|
      c_UserID := userID;
      c_Email := email;
      c_TokenType := tokenType;
      c_Registered := {|
        jwt.ExpiresAt := Some (jwt.NewNumericDate (gotime.Add now expiry));
        jwt.IssuedAt := Some (jwt.NewNumericDate now);
        jwt.NotBefore := Some (jwt.NewNumericDate now)
      |}
    |} in
    Ok (jwt.SignedString jwt.SigningMethodHS256 claims secret).

Definition GenerateAccessToken (userID email : string)
    (expiry : gotime.Duration) (secret : string) (now : gotime.Time) :=
  generateToken userID email "access" expiry secret now.

Definition GenerateRefreshToken (userID email : string)
    (expiry : gotime.Duration) (secret : string) (now : gotime.Time) :=
  generateToken userID email "refresh" expiry secret now.

(** The key function handed to the parser. *)
Definition keyFunc (secret : string) (method : jwt.SigningMethod)
    : result string string :=
  if negb (jwt.isHMAC method) then
    Fail ("unexpected signing method: " +:+ jwt.Alg method)
  else Ok secret.

Definition errExpired : string := "token has expired".
Definition errInvalid (cause : string) : string := "invalid token: " +:+ cause.

(** [ValidateToken], reading the clock as [now]. *)
Definition ValidateToken (tokenString : token) (secret : string)
    (now : gotime.Time) : result string TokenClaims :=
  if jwt.isEmpty tokenString then Fail "token cannot be empty"
  else if strings.isEmpty secret then Fail "secret cannot be empty"
  else
    match jwt.ParseWithClaims tokenString (keyFunc secret) now with
    | Fail err =>
        if strings.Contains (jwt.ErrorString err) "token has expired"
           || strings.Contains (jwt.ErrorString err) "token is expired"
        then Fail errExpired
        else Fail (errInvalid (jwt.ErrorString err))
    | Ok claims =>
        Ok {| UserID := c_UserID claims;
              Email := c_Email claims;
              TokenType := c_TokenType claims |}
    end.

End utils_jwt.


(** ** internal/middleware/rate_limit.go *)

Module middleware.

Record client := {
  tokens : Z;
  lastReset : gotime.Time
}.

(** The limiter without its mutex: [allow] and a pass of [cleanup] each
    run under the exclusive lock, so each is one atomic step on this
    state. *)
Record RateLimiter := {
  clients : gmap string client;
  limit : Z;
  window : gotime.Duration
}.

Definition NewRateLimiter (limit : Z) (window : gotime.Duration)
    : RateLimiter :=
  {| clients := ∅; limit := limit; window := window |}.

Definition with_clients (rl : RateLimiter) (m : gmap string client)
    : RateLimiter :=
  {| clients := m; limit := limit rl; window := window rl |}.

(** "Get or create client": the record [allow] works on. *)
Definition getOrCreate (rl : RateLimiter) (now : gotime.Time)
    (ip : string) : client :=
  match clients rl !! ip with
  | Some cl => cl
  | None => {| tokens := limit rl; lastReset := now |}
  end.

(** "Check if window has expired". *)
Definition expired (rl : RateLimiter) (now : gotime.Time) (cl : client)
    : bool :=
  gotime.Sub now (lastReset cl) >? window rl.

Definition refill (rl : RateLimiter) (now : gotime.Time) (cl : client)
    : client :=
  if expired rl now cl
  then {| tokens := limit rl; lastReset := now |}
  else cl.

(** [allow]: the map entry is a pointer, so every assignment to the
    record is an update of the entry; the result is
    [(allowed, remaining, resetTime)]. *)
Definition allow (rl : RateLimiter) (now : gotime.Time) (ip : string)
    : RateLimiter * (bool * Z * gotime.Time) :=
  let cl := refill rl now (getOrCreate rl now ip) in
  if tokens cl >? 0 then
    let cl' := {| tokens := tokens cl - 1; lastReset := lastReset cl |} in
    (with_clients rl (<[ip := cl']> (clients rl)),
     (true, tokens cl', gotime.Add (lastReset cl') (window rl)))
  else
    (with_clients rl (<[ip := cl]> (clients rl)),
     (false, 0, gotime.Add (lastReset cl) (window rl))).

(** One tick of [cleanup]: the body of its [for range ticker.C] loop.
    The product [rl.window*2] is an [int64] and wraps around. *)
Definition cleanup (rl : RateLimiter) (now : gotime.Time) : RateLimiter :=
  with_clients rl
    (filter
       (fun kv =>
          ¬ (gotime.Sub now (lastReset kv.2) > gotime.int64 (window rl * 2)))
       (clients rl)).

(** What happens to a limiter: requests and ticks, each at its time. *)
Inductive event :=
| Request (ip : string) (now : gotime.Time)
| Tick (now : gotime.Time).

Definition step (rl : RateLimiter) (e : event) : RateLimiter :=
  match e with
  | Request ip now => (allow rl now ip).1
  | Tick now => cleanup rl now
  end.

Definition run (rl : RateLimiter) (es : list event) : RateLimiter :=
  fold_left step es rl.

(** Consecutive requests of one client, with their answers in order. *)
Fixpoint allowAll (rl : RateLimiter) (ip : string) (times : list gotime.Time)
    : RateLimiter * list (bool * Z * gotime.Time) :=
  match times with
  | [] => (rl, [])
  | now :: rest =>
      let '(rl1, r) := allow rl now ip in
      let '(rl2, rs) := allowAll rl1 ip rest in
      (rl2, r :: rs)
  end.

End middleware.

(** ** pkg/errors/errors.go *)

Module appErrors.

(** The sentinel errors an [AppError] wraps. *)
Inductive sentinel :=
| ErrInvalidCredentials
| ErrTokenExpired
| ErrTokenInvalid
| ErrUnauthorized
| ErrUserNotFound
| ErrUserAlreadyExists
| ErrUserInactive
| ErrInvalidInput
| ErrInvalidEmail
| ErrWeakPassword
| ErrPasswordMismatch
| ErrRateLimitExceeded
| ErrInternal
| ErrDatabaseError
| ErrCacheError.

Record AppError := {
  Err : sentinel;
  Message : string;
  StatusCode : Z
}.

Definition sentinelMessage (e : sentinel) : string :=
  match e with
  | ErrInvalidCredentials => "invalid email or password"
  | ErrTokenExpired => "token has expired"
  | ErrTokenInvalid => "invalid token"
  | ErrUnauthorized => "unauthorized"
  | ErrUserNotFound => "user not found"
  | ErrUserAlreadyExists => "user already exists"
  | ErrUserInactive => "user account is inactive"
  | ErrInvalidInput => "invalid input"
  | ErrInvalidEmail => "invalid email format"
  | ErrWeakPassword => "password does not meet strength requirements"
  | ErrPasswordMismatch => "passwords do not match"
  | ErrRateLimitExceeded => "rate limit exceeded"
  | ErrInternal => "internal server error"
  | ErrDatabaseError => "database error"
  | ErrCacheError => "cache error"
  end.

(** The method [Error] of an [AppError]. *)
Definition Error (e : AppError) : string :=
  if strings.isEmpty (Message e) then sentinelMessage (Err e)
  else Message e.

Definition NewBadRequest (message : string) : AppError :=
  {| Err := ErrInvalidInput; Message := message; StatusCode := 400 |}.

Definition NewUnauthorized (message : string) : AppError :=
  {| Err := ErrUnauthorized; Message := message; StatusCode := 401 |}.

Definition NewNotFound (message : string) : AppError :=
  {| Err := ErrUserNotFound; Message := message; StatusCode := 404 |}.

Definition NewForbidden (message : string) : AppError :=
  {| Err := ErrUserInactive; Message := message; StatusCode := 403 |}.

Definition NewConflict (message : string) : AppError :=
  {| Err := ErrUserAlreadyExists; Message := message; StatusCode := 409 |}.

End appErrors.

(** A Go [error] as the service returns it: an [*AppError], or the
    message of an error made by [fmt.Errorf]. *)
Inductive error :=
| App (e : appErrors.AppError)
| Errorf (message : string).

(** [err.Error()] *)
Definition errorMessage (e : error) : string :=
  match e with
  | App a => appErrors.Error a
  | Errorf message => message
  end.


(** ** What the service takes from outside the repository

    github.com/google/uuid, golang.org/x/crypto/bcrypt and net/mail are
    used through these operations only.  Randomness is an argument: the
    salt of [bcrypt.GenerateFromPassword] here, the fresh identifier of
    [uuid.New()] in [Register]. *)

Class Externals := {
  UUID : Type;
  uuid_String : UUID -> string;
  uuid_Parse : string -> option UUID;
  bcrypt_GenerateFromPassword : string -> string -> result string string;
  bcrypt_CompareHashAndPassword : string -> string -> bool;
  mail_ParseAddress : string -> option string;
  (** The text of an identifier is hexadecimal digits and hyphens, so
      JSON carries it unchanged. *)
  uuid_String_roundTrip :
    forall id, json.roundTrip (uuid_String id) = uuid_String id
}.

(** ** internal/models *)

Module models.
Section Models.
Context `{Externals}.

Record User := {
  ID : UUID;
  Email : string;
  Phone : string;
  PasswordHash : string;
  FirstName : string;
  LastName : string;
  DateOfBirth : gotime.Time;
  AddressLine1 : string;
  AddressLine2 : string;
  City : string;
  Postcode : string;
  Country : string;
  KYCStatus : string;
  KYCVerifiedAt : option gotime.Time;
  IsActive : bool;
  CreatedAt : gotime.Time;
  UpdatedAt : gotime.Time
}.

(** [user.PasswordHash = h] *)
Definition set_PasswordHash (h : string) (u : User) : User :=
  {| ID := ID u; Email := Email u; Phone := Phone u; PasswordHash := h;
     FirstName := FirstName u; LastName := LastName u;
     DateOfBirth := DateOfBirth u; AddressLine1 := AddressLine1 u;
     AddressLine2 := AddressLine2 u; City := City u;
     Postcode := Postcode u; Country := Country u;
     KYCStatus := KYCStatus u; KYCVerifiedAt := KYCVerifiedAt u;
     IsActive := IsActive u; CreatedAt := CreatedAt u;
     UpdatedAt := UpdatedAt u |}.

Record RegisterRequest := {
  r_Email : string;
  r_Phone : string;
  r_Password : string;
  r_FirstName : string;
  r_LastName : string;
  r_DateOfBirth : gotime.Time;
  r_AddressLine1 : string;
  r_AddressLine2 : string;
  r_City : string;
  r_Postcode : string;
  r_Country : string
}.

Record LoginResponse := {
  AccessToken : utils_jwt.token;
  RefreshToken : utils_jwt.token;
  ExpiresIn : Z;
  TokenType : string;
  User_ : User
}.

Record RefreshTokenResponse := {
  rt_AccessToken : utils_jwt.token;
  rt_ExpiresIn : Z;
  rt_TokenType : string
}.

End Models.
End models.

(** ** internal/repository: the store the service is given

    [GetByID] and [GetByEmail] return a record or an error, never neither.
    [Create] receives a pointer to the record and may write through it, so
    it hands back the record as it left it, with the new store. *)

Class UserRepository `{Externals} (R : Type) := {
  Create : R -> models.User -> R * models.User * option error;
  GetByID : R -> UUID -> result error models.User;
  GetByEmail : R -> string -> result error models.User
}.

(** ** internal/services/auth_service.go

    The service names three things its packages spell otherwise:
    [utils.ComparePassword] is [ComparePasswords] of password.go,
    [claims.Type] is the field [TokenType] of [TokenClaims], and the
    [Region] it copies in [Register] is a field of neither the request nor
    the user record and is left out.  The several clock readings of one
    call are one instant [now]. *)

Module services.
Import strings appErrors models.

Definition commonPasswords : gmap string bool :=
  list_to_map
    [("password", true); ("password123", true); ("12345678", true);
     ("qwerty", true); ("abc123", true); ("password1", true);
     ("password123!", true); ("welcome", true); ("welcome123", true);
     ("admin", true); ("admin123", true); ("letmein", true);
     ("monkey", true); ("1234567890", true)].

(** The members of the character class of the special-character
    pattern. *)
Definition specialClass : string :=
  "!@#$%^&*()_+-=[]{};':" +:+ String dquote "\|,.<>/?".

Record AuthService := {
  jwtSecret : string;
  accessTokenDuration : gotime.Duration;
  refreshTokenDuration : gotime.Duration
}.

(** [validatePassword]; each pattern is a one-character class, so
    [MatchString] holds when some byte is in the class. *)
Definition validatePassword (password : string) : option error :=
  if len password <? 8 then
    Some (App (NewBadRequest "password must be at least 8 characters long"))
  else if len password >? 72 then
    Some (App (NewBadRequest "password too long: maximum 72 characters"))
  else if negb (any isUpper password) then
    Some (App (NewBadRequest
      "password must contain at least one uppercase letter"))
  else if negb (any isLower password) then
    Some (App (NewBadRequest
      "password must contain at least one lowercase letter"))
  else if negb (any isDigit password) then
    Some (App (NewBadRequest "password must contain at least one number"))
  else if negb (any (ContainsRune specialClass) password) then
    Some (App (NewBadRequest
      "password must contain at least one special character"))
  else if index_bool commonPasswords (ToLower password) then
    Some (App (NewBadRequest
      "password is too common, please choose a stronger password"))
  else None.

Definition underage : error :=
  App (NewBadRequest "you must be at least 18 years old to register").

(** The age check at the end of [validateRegistrationRequest], for a
    clock and a date of birth in UTC: [Year] and [YearDay] read the
    calendar of the location a [Time] carries. *)
Definition validateAge (now dateOfBirth : gotime.Time) : option error :=
  let age := gotime.Year now - gotime.Year dateOfBirth in
  if age <? 18 then Some underage
  else
    let age :=
      if gotime.YearDay now <? gotime.YearDay dateOfBirth
      then age - 1 else age in
    if age <? 18 then Some underage else None.

Section Service.
Context `{Ext : Externals} `{Txt : unicode.Strings}
  {R : Type} `{Repo : !UserRepository R}.

(** [utils.HashPassword] *)
Definition HashPassword (salt password : string) : result string string :=
  if isEmpty password then Fail "password cannot be empty"
  else if len password >? 72 then
    Fail "password too long: maximum 72 bytes"
  else
    match bcrypt_GenerateFromPassword salt password with
    | Fail e => Fail ("failed to hash password: " +:+ e)
    | Ok hash => Ok hash
    end.

(** [utils.ComparePasswords]: [true] is the nil error. *)
Definition ComparePasswords (hashedPassword password : string) : bool :=
  bcrypt_CompareHashAndPassword hashedPassword password.

Definition validateRegistrationRequest (now : gotime.Time)
    (req : RegisterRequest) : option error :=
  if isEmpty (r_Email req) then
    Some (App (NewBadRequest "email is required"))
  else if isEmpty (r_Password req) then
    Some (App (NewBadRequest "password is required"))
  else if isEmpty (r_FirstName req) then
    Some (App (NewBadRequest "first name is required"))
  else if isEmpty (r_LastName req) then
    Some (App (NewBadRequest "last name is required"))
  else if gotime.IsZero (r_DateOfBirth req) then
    Some (App (NewBadRequest "date of birth is required"))
  else if isEmpty (r_AddressLine1 req) then
    Some (App (NewBadRequest "address line 1 is required"))
  else if isEmpty (r_City req) then
    Some (App (NewBadRequest "city is required"))
  else if isEmpty (r_Postcode req) then
    Some (App (NewBadRequest "postcode is required"))
  else if isEmpty (r_Country req) then
    Some (App (NewBadRequest "country is required"))
  else validateAge now (r_DateOfBirth req).

Definition validateEmail (email : string) : option error :=
  let email := unicode.TrimSpace email in
  if isEmpty email then Some (App (NewBadRequest "email cannot be empty"))
  else
    match mail_ParseAddress email with
    | None => Some (App (NewBadRequest "invalid email format"))
    | Some address =>
        if Contains address " " then
          Some (App (NewBadRequest "invalid email format"))
        else if len address >? 254 then
          Some (App (NewBadRequest "email too long"))
        else None
    end.

Definition generateAccessToken (s : AuthService) (now : gotime.Time)
    (userID email : string) : result string utils_jwt.token :=
  utils_jwt.GenerateAccessToken userID email (accessTokenDuration s)
    (jwtSecret s) now.

Definition generateRefreshToken (s : AuthService) (now : gotime.Time)
    (userID email : string) : result string utils_jwt.token :=
  utils_jwt.GenerateRefreshToken userID email (refreshTokenDuration s)
    (jwtSecret s) now.

(** [Register]; [id] is the value of [uuid.New()] and [salt] the
    randomness of the hash. *)
Definition Register (s : AuthService) (repo : R) (now : gotime.Time)
    (id : UUID) (salt : string) (req : RegisterRequest)
    : R * result error User :=
  match validateRegistrationRequest now req with
  | Some err => (repo, Fail err)
  | None =>
  match validateEmail (r_Email req) with
  | Some err => (repo, Fail err)
  | None =>
  match validatePassword (r_Password req) with
  | Some err => (repo, Fail err)
  | None =>
  match GetByEmail repo (r_Email req) with
  | Ok _ =>
      (repo, Fail (App (NewConflict "user with this email already exists")))
  | Fail _ =>
  match HashPassword salt (r_Password req) with
  | Fail e => (repo, Fail (Errorf ("failed to hash password: " +:+ e)))
  | Ok passwordHash =>
      let user := {|
        ID := id;
        Email := unicode.ToLower (unicode.TrimSpace (r_Email req));
        PasswordHash := passwordHash;
        Phone := r_Phone req;
        FirstName := r_FirstName req;
        LastName := r_LastName req;
        DateOfBirth := r_DateOfBirth req;
        AddressLine1 := r_AddressLine1 req;
        AddressLine2 := r_AddressLine2 req;
        City := r_City req;
        Postcode := r_Postcode req;
        Country := r_Country req;
        IsActive := true;
        KYCStatus := "pending";
        KYCVerifiedAt := None;
        CreatedAt := now;
        UpdatedAt := now
      |} in
      match Create repo user with
      | (repo', _, Some err) =>
          (repo',
           Fail (Errorf ("failed to create user: " +:+ errorMessage err)))
      | (repo', user', None) =>
          (repo', Ok (set_PasswordHash EmptyString user'))
      end
  end end end end end.

(** [Login]; the e-mail may hold any code points, so it is trimmed and
    lower-cased by [unicode.TrimSpace] and [unicode.ToLower]. *)
Definition Login (s : AuthService) (repo : R) (now : gotime.Time)
    (email password : string) : result error LoginResponse :=
  if isEmpty email then Fail (App (NewBadRequest "email is required"))
  else if isEmpty password then
    Fail (App (NewBadRequest "password is required"))
  else
    match GetByEmail repo (unicode.ToLower (unicode.TrimSpace email)) with
    | Fail _ => Fail (App (NewUnauthorized "invalid email or password"))
    | Ok user =>
        if negb (IsActive user) then
          Fail (App (NewForbidden "account is inactive"))
        else if negb (ComparePasswords (PasswordHash user) password) then
          Fail (App (NewUnauthorized "invalid email or password"))
        else
          match generateAccessToken s now (uuid_String (ID user))
                  (Email user) with
          | Fail e =>
              Fail (Errorf ("failed to generate access token: " +:+ e))
          | Ok accessToken =>
              match generateRefreshToken s now (uuid_String (ID user))
                      (Email user) with
              | Fail e =>
                  Fail (Errorf
                    ("failed to generate refresh token: " +:+ e))
              | Ok refreshToken =>
                  Ok {| AccessToken := accessToken;
                        RefreshToken := refreshToken;
                        TokenType := "Bearer";
                        ExpiresIn :=
                          gotime.Seconds_int (accessTokenDuration s);
                        User_ := set_PasswordHash EmptyString user |}
              end
          end
    end.

(** [RefreshToken] *)
Definition RefreshToken (s : AuthService) (repo : R) (now : gotime.Time)
    (refreshToken : utils_jwt.token) : result error RefreshTokenResponse :=
  if jwt.isEmpty refreshToken then
    Fail (App (NewBadRequest "refresh token is required"))
  else
    match utils_jwt.ValidateToken refreshToken (jwtSecret s) now with
    | Fail _ =>
        Fail (App (NewUnauthorized "invalid or expired refresh token"))
    | Ok claims =>
        if negb (String.eqb (utils_jwt.TokenType claims) "refresh") then
          Fail (App (NewUnauthorized "invalid token type"))
        else
          match uuid_Parse (utils_jwt.UserID claims) with
          | None => Fail (App (NewUnauthorized "invalid user ID in token"))
          | Some userID =>
              match GetByID repo userID with
              | Fail _ => Fail (App (NewNotFound "user not found"))
              | Ok user =>
                  if negb (IsActive user) then
                    Fail (App (NewForbidden "account is inactive"))
                  else
                    match generateAccessToken s now
                            (uuid_String (ID user)) (Email user) with
                    | Fail e =>
                        Fail (Errorf
                          ("failed to generate access token: " +:+ e))
                    | Ok accessToken =>
                        Ok {| rt_AccessToken := accessToken;
                              rt_TokenType := "Bearer";
                              rt_ExpiresIn :=
                                gotime.Seconds_int
                                  (accessTokenDuration s) |}
                    end
              end
          end
    end.

(** [ValidateAccessToken] *)
Definition ValidateAccessToken (s : AuthService) (repo : R)
    (now : gotime.Time) (accessToken : utils_jwt.token)
    : result error User :=
  if jwt.isEmpty accessToken then
    Fail (App (NewBadRequest "access token is required"))
  else
    match utils_jwt.ValidateToken accessToken (jwtSecret s) now with
    | Fail _ =>
        Fail (App (NewUnauthorized "invalid or expired access token"))
    | Ok claims =>
        if negb (String.eqb (utils_jwt.TokenType claims) "access") then
          Fail (App (NewUnauthorized "invalid token type"))
        else
          match uuid_Parse (utils_jwt.UserID claims) with
          | None => Fail (App (NewUnauthorized "invalid user ID in token"))
          | Some userID =>
              match GetByID repo userID with
              | Fail _ => Fail (App (NewNotFound "user not found"))
              | Ok user =>
                  if negb (IsActive user) then
                    Fail (App (NewForbidden "account is inactive"))
                  else Ok (set_PasswordHash EmptyString user)
              end
          end
    end.

End Service.
End services.

(** ** A store in memory and stand-ins for the outside libraries

    They let the service run on concrete inputs.  The stand-in hash is not
    bcrypt: it only keeps the shape of the interface (a digest made from a
    salt and a password, and a comparison that accepts a digest of the
    password). *)

Module memory.
Import strings models.

(** The text of an identifier: the identifier itself, with a zero digit
    for every byte outside ASCII. *)
Fixpoint uuidText (id : string) : string :=
  match id with
  | EmptyString => EmptyString
  | String c id' =>
      String (if utf8.isASCII c then c else "0"%char) (uuidText id')
  end.

Definition uuidText_roundTrip (id : string) :
  json.roundTrip (uuidText id) = uuidText id.
Proof.
  induction id as [|c id IH]; [done|]. cbn [uuidText].
  destruct (utf8.isASCII c) eqn:Hc; cbn [json.roundTrip].
  - by rewrite Hc, IH.
  - change (utf8.isASCII "0") with true. cbn match. by rewrite IH.
Qed.

#[export] Instance externals : Externals := {|
  UUID := string;
  uuid_String := uuidText;
  uuid_Parse s := if (String.length s =? 36)%nat then Some s else None;
  bcrypt_GenerateFromPassword salt password :=
    Ok ("$2a$12$" +:+ salt +:+ "$" +:+ password);
  bcrypt_CompareHashAndPassword hash password :=
    HasPrefix hash "$2a$12$"
    && String.eqb
         (substring (String.length hash - String.length password - 1)
                    (S (String.length password)) hash)
         ("$" +:+ password);
  mail_ParseAddress s := if Contains s "@" then Some s else None;
  uuid_String_roundTrip := uuidText_roundTrip
|}.

Definition ToLower_not_empty (s : string) :
  s <> EmptyString -> ToLower s <> EmptyString.
Proof. by destruct s. Qed.

(** The two functions of package strings on ASCII text. *)
#[export] Instance text : unicode.Strings := {|
  unicode.ToLower := ToLower;
  unicode.TrimSpace := TrimSpace;
  unicode.ToLower_not_empty := ToLower_not_empty;
  unicode.ToLower_ASCII s _ := eq_refl;
  unicode.TrimSpace_ASCII s _ := eq_refl
|}.

(** The users, by identifier. *)
Definition store := list User.

Definition findBy (p : User -> bool) (db : store) : result error User :=
  match List.find p db with
  | Some u => Ok u
  | None => Fail (App (appErrors.NewNotFound "user not found"))
  end.

Definition emailTaken (email : string) (db : store) : bool :=
  existsb (fun u => String.eqb (Email u) email) db.

#[export] Instance repository : UserRepository store := {|
  Create db user :=
    if emailTaken (Email user) db then
      (db, user,
       Some (App (appErrors.NewConflict
               "user with this email or phone already exists")))
    else (user :: db, user, None);
  GetByID db id := findBy (fun u => String.eqb (ID u) id) db;
  GetByEmail db email := findBy (fun u => String.eqb (Email u) email) db
|}.

Definition service : services.AuthService := {|
  services.jwtSecret := "test-secret-key-at-least-32-chars-long-for-security";
  services.accessTokenDuration := 15 * gotime.Minute;
  services.refreshTokenDuration := 7 * 24 * gotime.Hour
|}.

Definition john (active : bool) : User := {|
  ID := "6ba7b810-9dad-11d1-80b4-00c04fd430c8";
  Email := "john.doe@example.com";
  Phone := "+10000000000";
  PasswordHash := "$2a$12$salt$SecurePass123!";
  FirstName := "John";
  LastName := "Doe";
  DateOfBirth := gotime.Date 1990 1 1;
  AddressLine1 := "1 Main Street";
  AddressLine2 := EmptyString;
  City := "London";
  Postcode := "N1 9GU";
  Country := "GB";
  KYCStatus := "verified";
  KYCVerifiedAt := None;
  IsActive := active;
  CreatedAt := gotime.Date 2020 1 1;
  UpdatedAt := gotime.Date 2020 1 1
|}.

Definition request (dateOfBirth : gotime.Time) : RegisterRequest := {|
  r_Email := "a@b.com";
  r_Phone := "+10000000000";
  r_Password := "Secure123!";
  r_FirstName := "Ann";
  r_LastName := "Bee";
  r_DateOfBirth := dateOfBirth;
  r_AddressLine1 := "1 Main Street";
  r_AddressLine2 := EmptyString;
  r_City := "London";
  r_Postcode := "N1 9GU";
  r_Country := "GB"
|}.

(** 2024-06-01, 12:00:00.25 UTC *)
Definition noon : gotime.Time :=
  gotime.Date 2024 6 1 + 12 * gotime.Hour + 250 * gotime.Millisecond.

(** The token of the given class issued for [john] at [noon]. *)
Definition issued (class : string) (expiry : gotime.Duration)
    : utils_jwt.token :=
  match utils_jwt.generateToken (ID (john true)) (Email (john true)) class
          expiry (services.jwtSecret service) noon with
  | Ok tok => tok
  | Fail _ => jwt.Unparseable EmptyString EmptyString
  end.

Definition accessToken : utils_jwt.token :=
  issued "access" (services.accessTokenDuration service).

Definition refreshToken : utils_jwt.token :=
  issued "refresh" (services.refreshTokenDuration service).

End memory.


(** * Vocabulary of the properties *)

(** ** Password strength rules *)

Section RuleOrder.
Import strings.

Inductive rule :=
| MinLength | MaxLength | HasUpper | HasLower | HasDigit | HasSymbol
| NotCommon.

(** The order in which both validators of the repository test the
    rules. *)
Definition evaluationOrder : list rule :=
  [MinLength; MaxLength; HasUpper; HasLower; HasDigit; HasSymbol; NotCommon].

(** The order the specification lists: the lower-case rule before the
    upper-case rule. *)
Definition specifiedOrder : list rule :=
  [MinLength; MaxLength; HasLower; HasUpper; HasDigit; HasSymbol; NotCommon].

(** Whether a password satisfies a rule, for a symbol set and a
    deny-list. *)
Definition passes (symbols : string) (deny : gmap string bool)
    (r : rule) (p : string) : bool :=
  match r with
  | MinLength => 8 <=? len p
  | MaxLength => len p <=? 72
  | HasUpper => any isUpper p
  | HasLower => any isLower p
  | HasDigit => any isDigit p
  | HasSymbol => any (ContainsRune symbols) p
  | NotCommon => negb (index_bool deny (ToLower p))
  end.

(** The reason of the first rule of [order] the password breaks. *)
Definition earliestFailure {E} (order : list rule)
    (ok : rule -> string -> bool) (reason : rule -> E) (p : string)
    : option E :=
  reason <$> List.find (fun r => negb (ok r p)) order.

Definition utilsPasses : rule -> string -> bool :=
  passes utils_password.specialChars utils_password.commonPasswords.

Definition utilsReason (r : rule) : string :=
  match r with
  | MinLength => utils_password.errTooShort
  | MaxLength => utils_password.errTooLong
  | HasUpper => utils_password.errNoUpper
  | HasLower => utils_password.errNoLower
  | HasDigit => utils_password.errNoNumber
  | HasSymbol => utils_password.errNoSpecial
  | NotCommon => utils_password.errCommon
  end.

Definition servicePasses : rule -> string -> bool :=
  passes services.specialClass services.commonPasswords.

Definition serviceReason (r : rule) : error :=
  App (appErrors.NewBadRequest
    match r with
    | MinLength => "password must be at least 8 characters long"
    | MaxLength => "password too long: maximum 72 characters"
    | HasUpper => "password must contain at least one uppercase letter"
    | HasLower => "password must contain at least one lowercase letter"
    | HasDigit => "password must contain at least one number"
    | HasSymbol => "password must contain at least one special character"
    | NotCommon =>
        "password is too common, please choose a stronger password"
    end).

End RuleOrder.

(** ** Tokens *)

Section TokenClaims.
Import utils_jwt.


(** The class claim of a token, when it is a compact one. *)
Definition classOf (tok : token) : option string :=
  match tok with
  | jwt.Compact _ claims _ => Some (c_TokenType claims)
  | jwt.Unparseable _ _ => None
  end.

(** Two secrets are one key to HMAC-SHA256: they give the same block
    once a key longer than 64 bytes is hashed and zero bytes fill the
    block. *)
Definition sameKey (secret other : string) : Prop :=
  jwt.hmacKey jwt.SigningMethodHS256 secret
  = jwt.hmacKey jwt.SigningMethodHS256 other.

#[global] Instance sameKey_dec (secret other : string)
  : Decision (sameKey secret other).
Proof. unfold sameKey. apply _. Defined.

End TokenClaims.

(** ** Registration *)

Section RegistrationData.
Import models.
Context `{Ext : Externals}.

(** The fields [validateRegistrationRequest] requires are present. *)
Definition requiredFields (req : RegisterRequest) : Prop :=
  r_Email req <> EmptyString /\ r_Password req <> EmptyString
  /\ r_FirstName req <> EmptyString /\ r_LastName req <> EmptyString
  /\ gotime.IsZero (r_DateOfBirth req) = false
  /\ r_AddressLine1 req <> EmptyString /\ r_City req <> EmptyString
  /\ r_Postcode req <> EmptyString /\ r_Country req <> EmptyString.

(** The personal data of a request, and of a record. *)
Definition requestData (req : RegisterRequest) :=
  (r_Phone req, r_FirstName req, r_LastName req, r_DateOfBirth req,
   r_AddressLine1 req, r_AddressLine2 req, r_City req, r_Postcode req,
   r_Country req).

Definition personalData (u : User) :=
  (Phone u, FirstName u, LastName u, DateOfBirth u, AddressLine1 u,
   AddressLine2 u, City u, Postcode u, Country u).

End RegistrationData.

(** The age in whole years on the civil date [today] of a person born on
    the civil date [born]: the birthday counts from its own day on. *)
Definition ageOn (today born : Z * Z * Z) : Z :=
  let '(y, m, d) := today in
  let '(by_, bm, bd) := born in
  if (m <? bm) || ((m =? bm) && (d <? bd)) then y - by_ - 1 else y - by_.

(** ** Admission control *)

Section Windows.
Import gotime middleware.

(** A request of [ip] at [now] opens a window: the limiter has no record
    of [ip], or the window of its record has run out. *)
Definition opensWindow (rl : RateLimiter) (ip : string) (now : Time)
    : Prop :=
  match clients rl !! ip with
  | None => True
  | Some cl => Sub now (lastReset cl) > window rl
  end.

(** The answer to request number [i] (from 0) of a window that was
    opened at [start] with a budget of [budget] requests left. *)
Definition answerInWindow (rl : RateLimiter) (start : Time) (budget : Z)
    (i : nat) : bool * Z * Time :=
  if Z.of_nat i <? budget
  then (true, budget - 1 - Z.of_nat i, Add start (window rl))
  else (false, 0, Add start (window rl)).

(** Every record holds a budget between 0 and the configured limit. *)
Definition budgetsInRange (rl : RateLimiter) : Prop :=
  forall ip cl, clients rl !! ip = Some cl -> 0 <= tokens cl <= limit rl.

End Windows.

(** ** The errors of the credential service, by their names in the
    taxonomy of the specification *)

Definition InvalidInput (message : string) : error :=
  App (appErrors.NewBadRequest message).

Definition Inactive : error :=
  App (appErrors.NewForbidden "account is inactive").

Definition InvalidTokenType : error :=
  App (appErrors.NewUnauthorized "invalid token type").

(** ** The tokens of a record

    The compact token whose header names HS256, whose payload holds the
    identifier of the record in its text form, the e-mail of the record
    as JSON carries it, the class and, cut to whole seconds, the instant
    [now] as [iat] and [nbf] and the instant one lifetime later as [exp],
    and whose signature is the MAC of the two under the secret of the
    service. *)

Section TokensOfARecord.
Import models services.
Context `{Ext : Externals}.

Definition tokenOf (s : AuthService) (class : string)
    (ttl : gotime.Duration) (now : gotime.Time) (u : User)
    : utils_jwt.token :=
  let payload := {|
    utils_jwt.c_UserID := uuid_String (ID u);
    utils_jwt.c_Email := json.roundTrip (Email u);
    utils_jwt.c_TokenType := class;
    utils_jwt.c_Registered := {|
      jwt.ExpiresAt := Some (jwt.NewNumericDate (gotime.Add now ttl));
      jwt.IssuedAt := Some (jwt.NewNumericDate now);
      jwt.NotBefore := Some (jwt.NewNumericDate now)
    |}
  |} in
  jwt.Compact jwt.SigningMethodHS256 payload
    (jwt.HMACSum (jwtSecret s) jwt.SigningMethodHS256 payload).

Definition accessTokenOf (s : AuthService) (now : gotime.Time) (u : User)
    : utils_jwt.token :=
  tokenOf s "access" (accessTokenDuration s) now u.

Definition refreshTokenOf (s : AuthService) (now : gotime.Time) (u : User)
    : utils_jwt.token :=
  tokenOf s "refresh" (refreshTokenDuration s) now u.

End TokensOfARecord.

(** * More of the sources *)

(** ** strings.Fields and strings.Split *)

Module strings_split.
Import strings.

Definition isByte (n : N) (c : ascii) : bool :=
  Ascii.eqb c (ascii_of_N n).

(** [unicode.IsSpace] on the code points of two and of three bytes:
    U+0085 and U+00A0; U+1680, U+2000 to U+200A, U+2028, U+2029, U+202F,
    U+205F and U+3000. *)
Definition space2 (a b : ascii) : bool :=
  isByte 194 a && (isByte 133 b || isByte 160 b).

Definition space3 (a b c : ascii) : bool :=
  isByte 225 a && isByte 154 b && isByte 128 c
  || isByte 226 a && isByte 128 b
     && (byte_in 128 138 c || isByte 168 c || isByte 169 c || isByte 175 c)
  || isByte 226 a && isByte 129 b && isByte 159 c
  || isByte 227 a && isByte 128 b && isByte 128 c.

(** The length in bytes of the white-space code point [s] begins with; 0
    when it begins with none. *)
Definition spaceLen (s : string) : nat :=
  match s with
  | EmptyString => 0
  | String a s1 =>
      if isSpace a then 1
      else
        match s1 with
        | EmptyString => 0
        | String b s2 =>
            if space2 a b then 2
            else
              match s2 with
              | EmptyString => 0
              | String c _ => if space3 a b c then 3 else 0
              end
        end
  end.

(** Some white-space code point is in [s]. *)
Fixpoint hasSpace (s : string) : bool :=
  match s with
  | EmptyString => false
  | String _ s' => negb (spaceLen s =? 0)%nat || hasSpace s'
  end.

(** U+00A0, the no-break space: the bytes C2 A0. *)
Definition NBSP : string :=
  String (ascii_of_N 194) (String (ascii_of_N 160) EmptyString).

(** No white-space code point begins in [cur] when [s] follows it. *)
Fixpoint spaceFree (cur s : string) : bool :=
  match cur with
  | EmptyString => true
  | String _ cur' => (spaceLen (cur +:+ s) =? 0)%nat && spaceFree cur' s
  end.

(** The fields read so far, with the one being read when it is not
    empty. *)
Definition flush (cur : string) (rest : list string) : list string :=
  if isEmpty cur then rest else cur :: rest.

(** [strings.Fields(s)]: [s] cut at its white-space code points; [cur] is
    the field being read.  A byte that begins no white-space code point
    goes to the field: the bytes that follow it in its own code point
    begin none either. *)
Fixpoint fieldsFrom (cur s : string) : list string :=
  match s with
  | EmptyString => flush cur []
  | String a s1 =>
      if isSpace a then flush cur (fieldsFrom EmptyString s1)
      else
        match s1 with
        | EmptyString => fieldsFrom (cur +:+ String a EmptyString) s1
        | String b s2 =>
            if space2 a b then flush cur (fieldsFrom EmptyString s2)
            else
              match s2 with
              | EmptyString => fieldsFrom (cur +:+ String a EmptyString) s1
              | String c s3 =>
                  if space3 a b c then
                    flush cur (fieldsFrom EmptyString s3)
                  else fieldsFrom (cur +:+ String a EmptyString) s1
              end
        end
  end.

Definition Fields (s : string) : list string := fieldsFrom EmptyString s.

(** [strings.Split(s, sep)[0]] for a separator of one byte: the text
    before the first [sep], all of [s] when it has none. *)
Fixpoint beforeByte (sep : ascii) (s : string) : string :=
  match s with
  | EmptyString => EmptyString
  | String c s' =>
      if Ascii.eqb c sep then EmptyString else String c (beforeByte sep s')
  end.

End strings_split.

(** ** internal/utils/jwt.go: the Authorization header *)

Module utils_header.
Import strings strings_split.

(** [ExtractTokenFromHeader] *)
Definition ExtractTokenFromHeader (authHeader : string)
    : result string string :=
  if isEmpty authHeader then Fail "authorization header is empty"
  else
    match Fields authHeader with
    | [scheme; token] =>
        if negb (String.eqb scheme "Bearer") then
          Fail "invalid authorization header format: expected Bearer scheme"
        else if isEmpty token then Fail "token is empty"
        else Ok token
    | _ => Fail "invalid authorization header format"
    end.

End utils_header.

(** ** internal/middleware/rate_limit.go: the client key *)

Module middleware_ip.
Import strings strings_split.

(** [getClientIP]; the three arguments are the header X-Forwarded-For, the
    header X-Real-IP (each empty when absent) and [Request.RemoteAddr].
    [SplitHostPort] is that of package net: the host, or nothing on an
    error. *)
Definition getClientIP (SplitHostPort : string -> option string)
    (xff xri remoteAddr : string) : string :=
  if negb (isEmpty xff) then TrimSpace (beforeByte "," xff)
  else if negb (isEmpty xri) then xri
  else
    match SplitHostPort remoteAddr with
    | Some ip => ip
    | None => remoteAddr
    end.

End middleware_ip.

(** ** Admission control: counting *)

Section Counting.
Import gotime.

(** How many of the answers admit a request in the window that was opened
    at [start]: admitted answers announcing the reset at [start + W]. *)
Fixpoint admittedIn (W : Duration) (start : Time)
    (answers : list (bool * Z * Time)) : Z :=
  match answers with
  | [] => 0
  | (allowed, _, resetTime) :: rest =>
      (if allowed && (resetTime =? Add start W) then 1 else 0)
      + admittedIn W start rest
  end.

End Counting.

(** ** Registration: the record handed to the store *)

Section NewUser.
Import strings models.
Context `{Ext : Externals} `{Txt : unicode.Strings}.

(** The record [Register] builds before it calls [Create]. *)
Definition registeredUser (now : gotime.Time) (id : UUID)
    (passwordHash : string) (req : RegisterRequest) : User :=
  {| ID := id;
     Email := unicode.ToLower (unicode.TrimSpace (r_Email req));
     PasswordHash := passwordHash;
     Phone := r_Phone req;
     FirstName := r_FirstName req;
     LastName := r_LastName req;
     DateOfBirth := r_DateOfBirth req;
     AddressLine1 := r_AddressLine1 req;
     AddressLine2 := r_AddressLine2 req;
     City := r_City req;
     Postcode := r_Postcode req;
     Country := r_Country req;
     IsActive := true;
     KYCStatus := "pending";
     KYCVerifiedAt := None;
     CreatedAt := now;
     UpdatedAt := now |}.

End NewUser.

(** ** More runs on the store in memory *)

Module memory_runs.
Import models services memory.

(** The store and the record after the registration of [request] at
    [noon] against the empty store. *)
Definition registered : store * User :=
  match Register service ([] : store) noon
          "6ba7b810-9dad-11d1-80b4-00c04fd430c9" "salt"
          (request (gotime.Date 1990 1 1)) with
  | (db, Ok u) => (db, u)
  | (db, Fail _) => (db, john true)
  end.

(** The response to the login of [john] at [noon]. *)
Definition loggedIn : LoginResponse :=
  match Login service [john true] noon "john.doe@example.com"
          "SecurePass123!" with
  | Ok resp => resp
  | Fail _ =>
      {| AccessToken := accessToken; models.RefreshToken := refreshToken;
         ExpiresIn := 0; TokenType := EmptyString; User_ := john true |}
  end.

(** The response to the refresh token of [john], presented at [noon]. *)
Definition refreshed : RefreshTokenResponse :=
  match RefreshToken service [john true] noon refreshToken with
  | Ok resp => resp
  | Fail _ =>
      {| rt_AccessToken := accessToken; rt_ExpiresIn := 0;
         rt_TokenType := EmptyString |}
  end.

End memory_runs.

(** * Properties *)

(** ** The digests

    The test vectors of FIPS 180-4 for the message abc, and the digests of
    a message of 65 and of 129 bytes, each longer than one block. *)

Section Digests.
Import sha2.

Lemma SHA256_abc :
  hex (Sum SHA256 "abc")
  = "ba7816bf8f01cfea414140de5dae2223b00361a396177a9cb410ff61f20015ad".
Proof. by vm_compute. Qed.

Lemma SHA384_abc :
  hex (Sum SHA384 "abc")
  = "cb00753f45a35e8bb5a03d699ac65007272c32ab0eded163"
    +:+ "1a8b605a43ff5bed8086072ba1e7cc2358baeca134c825a7".
Proof. by vm_compute. Qed.

Lemma SHA512_abc :
  hex (Sum SHA512 "abc")
  = "ddaf35a193617abacc417349ae20413112e6fa4e89a97ea2"
    +:+ "0a9eeee64b55d39a2192992a274fc1a836ba3c23a3feebbd"
    +:+ "454d4423643ce80e2a9ac94fa54ca49f".
Proof. by vm_compute. Qed.

Lemma SHA256_two_blocks :
  hex (Sum SHA256
         ("aaaaaaaaaaaaaaaaaaaaaaaaaaaaaaaaaaaaaaaaaaaaaaaaaaaaaaaaaaaaaaaa"
          +:+ "a"))
  = "635361c48bb9eab14198e76ea8ab7f1a41685d6ad62aa9146d301d4f17eb0ae0".
Proof. by vm_compute. Qed.

Lemma SHA512_two_blocks :
  hex (Sum SHA512
         ("aaaaaaaaaaaaaaaaaaaaaaaaaaaaaaaaaaaaaaaaaaaaaaaaaaaaaaaaaaaaaaaa"
          +:+ "aaaaaaaaaaaaaaaaaaaaaaaaaaaaaaaaaaaaaaaaaaaaaaaaaaaaaaaaaaaaaaaa"
          +:+ "a"))
  = "4f681e0bd53cda4b5a2041cc8a06f2eabde44fb16c951fbd5b87702f07aeab61"
    +:+ "1565b19c47fde30587177ebb852e3971bbd8d3fd30da18d71037dfbd98420429".
Proof. by vm_compute. Qed.

(** Keys that are one key to the MAC: a key and the key with a zero byte
    behind it, and a key longer than a block and its digest. *)
Lemma blockKey_examples :
  let long :=
    "aaaaaaaaaaaaaaaaaaaaaaaaaaaaaaaaaaaaaaaaaaaaaaaaaaaaaaaaaaaaaaaa"
    +:+ "a" in
  hmac.blockKey SHA256 ("k1" +:+ String Ascii.zero EmptyString)
  = hmac.blockKey SHA256 "k1"
  /\ hmac.blockKey SHA256 (Sum SHA256 long) = hmac.blockKey SHA256 long
  /\ hmac.blockKey SHA256 "k2" <> hmac.blockKey SHA256 "k1"
  /\ String.length (hmac.blockKey SHA256 long) = 64%nat
  /\ String.length (hmac.blockKey SHA512 long) = 128%nat.
Proof. by vm_compute. Qed.

End Digests.

(** ** Password strength rules *)

Section PasswordRules.
Import strings.

Lemma min_length_flip (n : Z) : (8 <=? n) = negb (n <? 8).
Proof. destruct (Z.ltb_spec n 8), (Z.leb_spec 8 n); simpl; lia || done. Qed.

Lemma max_length_flip (n : Z) : (n <=? 72) = negb (n >? 72).
Proof.
  rewrite Z.gtb_ltb.
  destruct (Z.ltb_spec 72 n), (Z.leb_spec n 72); simpl; lia || done.
Qed.

Lemma utils_follows_order (p : string) :
  utils_password.ValidatePasswordStrength p
  = earliestFailure evaluationOrder utilsPasses utilsReason p.
Proof.
  unfold utils_password.ValidatePasswordStrength, earliestFailure,
    evaluationOrder, utilsPasses, passes.
  cbn [List.find fmap option_fmap option_map].
  rewrite min_length_flip, max_length_flip, !negb_involutive.
  destruct (len p <? 8); [done|].
  destruct (len p >? 72); [done|].
  unfold utils_password.hasUpper, utils_password.hasLower,
    utils_password.hasNumber, utils_password.hasSpecial.
  destruct (any isUpper p); [|done].
  destruct (any isLower p); [|done].
  destruct (any isDigit p); [|done].
  destruct (any (ContainsRune utils_password.specialChars) p); [|done].
  by destruct (index_bool utils_password.commonPasswords (ToLower p)).
Qed.

Lemma service_follows_order (p : string) :
  services.validatePassword p
  = earliestFailure evaluationOrder servicePasses serviceReason p.
Proof.
  unfold services.validatePassword, earliestFailure, evaluationOrder,
    servicePasses, passes.
  cbn [List.find fmap option_fmap option_map].
  rewrite min_length_flip, max_length_flip, !negb_involutive.
  destruct (len p <? 8); [done|].
  destruct (len p >? 72); [done|].
  destruct (any isUpper p); [|done].
  destruct (any isLower p); [|done].
  destruct (any isDigit p); [|done].
  destruct (any (ContainsRune services.specialClass) p); [|done].
  by destruct (index_bool services.commonPasswords (ToLower p)).
Qed.

(** C3, as the specification words it, fails: the password 12345678! has
    neither a lower-case nor an upper-case letter, so by the specified
    order it breaks the lower-case rule first; both validators report
    the missing upper-case letter. *)
Lemma C3_lowercase_first_refuted :
  let p := "12345678!" in
  earliestFailure specifiedOrder utilsPasses utilsReason p
    = Some utils_password.errNoLower
  /\ utils_password.ValidatePasswordStrength p
    = Some utils_password.errNoUpper
  /\ utils_password.ValidatePasswordStrength p
    <> earliestFailure specifiedOrder utilsPasses utilsReason p
  /\ services.validatePassword p
    <> earliestFailure specifiedOrder servicePasses serviceReason p.
Proof. vm_compute. repeat split; congruence. Qed.

(** C3, amended: both [ValidatePasswordStrength] and [validatePassword]
    test length at least 8, length at most 72, an upper-case letter, a
    lower-case letter, a digit, a symbol of their set and the deny-list
    (on the lower-cased password), in this order, and report the reason
    of the first rule that fails; a password that passes every rule is
    accepted. *)
Theorem C3_rules_in_evaluation_order (p : string) :
  utils_password.ValidatePasswordStrength p
    = earliestFailure evaluationOrder utilsPasses utilsReason p
  /\ services.validatePassword p
    = earliestFailure evaluationOrder servicePasses serviceReason p.
Proof. split; [apply utils_follows_order | apply service_follows_order]. Qed.

End PasswordRules.

(** ** Tokens *)

Section Tokens.
Import gotime utils_jwt.

Lemma isEmpty_false (s : string) :
  s <> EmptyString -> strings.isEmpty s = false.
Proof. by destruct s. Qed.

Lemma Truncate_Second_le (t : Time) : Truncate t Second <= t.
Proof.
  unfold Truncate, Second. simpl.
  pose proof (Z.mod_pos_bound t 1000000000). lia.
Qed.


(** What [ValidateToken] answers for a token made by [SignedString],
    from the outcome of the signature check and of the time checks. *)
Lemma ValidateToken_signed (claims : customClaims) (key secret : string)
    (now : Time) :
  secret <> EmptyString ->
  ValidateToken (jwt.SignedString jwt.SigningMethodHS256 claims key)
    secret now
  = if bool_decide (sameKey key secret) then
      match jwt.Validate claims now with
      | [] => Ok {| UserID := json.roundTrip (c_UserID claims);
                    Email := json.roundTrip (c_Email claims);
                    TokenType := json.roundTrip (c_TokenType claims) |}
      | errs =>
          if strings.Contains (jwt.joinErrors errs) "token is expired"
          then Fail errExpired
          else Fail (errInvalid
                 (jwt.ErrorString (jwt.ErrTokenInvalidClaims errs)))
      end
    else Fail (errInvalid (jwt.ErrorString jwt.ErrTokenSignatureInvalid)).
Proof.
  intros Hs. unfold ValidateToken, jwt.SignedString, sameKey.
  cbn [jwt.isEmpty]. rewrite (isEmpty_false _ Hs).
  cbn [jwt.ParseWithClaims keyFunc jwt.isHMAC negb].
  unfold jwt.Verify, jwt.HMACSum.
  change (jwt.Validate (jwt.Decoded claims) now)
    with (jwt.Validate claims now).
  case_bool_decide as Hk.
  - injection Hk as Hk. rewrite bool_decide_eq_true_2 by done. cbn [negb].
    destruct (jwt.Validate claims now) as [|e errs] eqn:Hv; [done|].
    destruct e, errs as [|[] [|]]; try done.
    all: unfold jwt.Validate, jwt.verifyExpiresAt, jwt.verifyNotBefore in Hv.
    all: destruct (jwt.GetExpirationTime claims) as [exp|];
      [destruct (Before now exp)|];
      (destruct (jwt.GetNotBefore claims) as [nbf|];
        [destruct (negb (Before now nbf))|]); discriminate.
  - rewrite bool_decide_eq_false_2; [done|].
    intros Heq. apply Hk. by rewrite Heq.
Qed.

Lemma generateToken_ok (userID email class secret : string)
    (ttl : Duration) (now : Time) :
  userID <> EmptyString -> email <> EmptyString ->
  secret <> EmptyString -> 0 < ttl ->
  generateToken userID email class ttl secret now
  = Ok (jwt.SignedString jwt.SigningMethodHS256
          {| c_UserID := userID; c_Email := email; c_TokenType := class;
             c_Registered :=
               {| jwt.ExpiresAt := Some (jwt.NewNumericDate (Add now ttl));
                  jwt.IssuedAt := Some (jwt.NewNumericDate now);
                  jwt.NotBefore := Some (jwt.NewNumericDate now) |} |}
          secret).
Proof.
  intros Hu He Hs Httl. unfold generateToken.
  rewrite !isEmpty_false by done.
  destruct (Z.leb_spec ttl 0); [lia|done].
Qed.

(** What a success of [generateToken] says of its arguments. *)
Lemma generateToken_inv (userID email class secret : string)
    (ttl : Duration) (now : Time) (tok : token) :
  generateToken userID email class ttl secret now = Ok tok ->
  userID <> EmptyString /\ email <> EmptyString
  /\ secret <> EmptyString /\ 0 < ttl
  /\ classOf tok = Some (json.roundTrip class).
Proof.
  unfold generateToken.
  destruct userID; [discriminate|]. destruct email; [discriminate|].
  destruct secret; [discriminate|]. cbn [strings.isEmpty].
  destruct (Z.leb_spec ttl 0); [discriminate|].
  intros [= <-]. by repeat split.
Qed.




(** Two issuances whose instants and expiries fall in the same whole
    seconds produce the same token. *)
Lemma generateToken_same_second (userID email class secret : string)
    (ttl : Duration) (now now' : Time) :
  jwt.NewNumericDate now = jwt.NewNumericDate now' ->
  jwt.NewNumericDate (Add now ttl) = jwt.NewNumericDate (Add now' ttl) ->
  generateToken userID email class ttl secret now
  = generateToken userID email class ttl secret now'.
Proof. intros H1 H2. unfold generateToken. by rewrite H1, H2. Qed.

(** Two issuances in different whole seconds produce different
    tokens. *)
Lemma generateToken_other_second (userID email class secret : string)
    (ttl : Duration) (now now' : Time) (tok tok' : token) :
  jwt.NewNumericDate now <> jwt.NewNumericDate now' ->
  generateToken userID email class ttl secret now = Ok tok ->
  generateToken userID email class ttl secret now' = Ok tok' ->
  tok <> tok'.
Proof.
  unfold generateToken. intros Hne.
  repeat case_match; try discriminate.
  intros [= <-] [= <-]. unfold jwt.SignedString.
  cbn [jwt.Decoded customClaims_Claims c_Registered]. congruence.
Qed.

(** C7 at a failing input: the access tokens issued for one subject at
    noon and a millisecond later are the same token, though the two
    instants differ. *)
Theorem C7_same_second_same_token :
  let later := memory.noon + Millisecond in
  memory.noon <> later
  /\ (exists tok,
        GenerateAccessToken "u-1" "a@b.com" (15 * Minute) "k1" memory.noon
        = Ok tok)
  /\ GenerateAccessToken "u-1" "a@b.com" (15 * Minute) "k1" memory.noon
     = GenerateAccessToken "u-1" "a@b.com" (15 * Minute) "k1" later.
Proof.
  split; [by vm_compute|]. split; [eexists|]; by vm_compute.
Qed.

End Tokens.

(** ** Registration: the age check *)

Section Age.
Import gotime services.

(** C4 at failing inputs.  A person born on 2000-03-01 is 18 on
    2018-03-01, and the request made on that birthday is refused: in the
    leap year of birth March 1 is day 61 of the year, in 2018 it is day
    60, and the check compares the two day numbers.  In the other
    direction a person born on 2002-03-01 is still 17 on 2020-02-29 (day
    60 of a leap year, as March 1 is of 2002) and passes the check. *)
Theorem C4_year_day_comparison :
  ageOn (2018, 3, 1) (2000, 3, 1) = 18
  /\ YearDay (Date 2018 3 1) = 60 /\ YearDay (Date 2000 3 1) = 61
  /\ validateRegistrationRequest (Date 2018 3 1)
       (memory.request (Date 2000 3 1)) = Some underage
  /\ ageOn (2020, 2, 29) (2002, 3, 1) = 17
  /\ validateRegistrationRequest (Date 2020 2 29)
       (memory.request (Date 2002 3 1)) = None.
Proof. by vm_compute. Qed.

End Age.

(** ** Admission control *)

(** Boolean comparisons in the context, as propositions. *)
Ltac zbool :=
  repeat match goal with
  | H : (_ <? _) = true |- _ => apply Z.ltb_lt in H
  | H : (_ <? _) = false |- _ => apply Z.ltb_ge in H
  | H : (_ >? _) = true |- _ => rewrite Z.gtb_ltb in H; apply Z.ltb_lt in H
  | H : (_ >? _) = false |- _ => rewrite Z.gtb_ltb in H; apply Z.ltb_ge in H
  | H : (_ <=? _) = true |- _ => apply Z.leb_le in H
  | H : (_ <=? _) = false |- _ => apply Z.leb_gt in H
  end.

Section Admission.
Import gotime middleware.

Lemma allow_config (rl : RateLimiter) (now : Time) (ip : string) :
  limit (allow rl now ip).1 = limit rl
  /\ window (allow rl now ip).1 = window rl.
Proof. unfold allow. by case_match. Qed.

(** The first request of a window. *)
Lemma allow_opening (rl : RateLimiter) (ip : string) (now : Time) :
  1 <= limit rl -> opensWindow rl ip now ->
  allow rl now ip
  = (with_clients rl
       (<[ip := {| tokens := limit rl - 1; lastReset := now |}]>
          (clients rl)),
     (true, limit rl - 1, Add now (window rl))).
Proof.
  intros Hlimit Hopen. unfold opensWindow in Hopen.
  unfold allow, getOrCreate.
  assert (refill rl now
            (match clients rl !! ip with
             | Some cl => cl
             | None => {| tokens := limit rl; lastReset := now |}
             end) = {| tokens := limit rl; lastReset := now |}) as ->.
  { unfold refill, expired. destruct (clients rl !! ip) as [cl|].
    - destruct (Z.gtb_spec (Sub now (lastReset cl)) (window rl)); [done|lia].
    - by case_match. }
  cbn [tokens lastReset].
  destruct (Z.gtb_spec (limit rl) 0); [done|lia].
Qed.

(** A request inside the window of an existing record. *)
Lemma allow_within (rl : RateLimiter) (ip : string) (start now : Time)
    (k : Z) :
  clients rl !! ip = Some {| tokens := k; lastReset := start |} ->
  Sub now start <= window rl ->
  allow rl now ip
  = (with_clients rl
       (<[ip := {| tokens := if k >? 0 then k - 1 else k;
                   lastReset := start |}]> (clients rl)),
     if k >? 0
     then (true, k - 1, Add start (window rl))
     else (false, 0, Add start (window rl))).
Proof.
  intros Hcl Hin. unfold allow, getOrCreate, refill, expired.
  rewrite Hcl. cbn [tokens lastReset].
  destruct (Z.gtb_spec (Sub now start) (window rl)); [lia|].
  cbn [tokens lastReset]. by destruct (k >? 0).
Qed.

(** A request after the window of an existing record has run out. *)
Lemma allow_after (rl : RateLimiter) (ip : string) (now : Time)
    (cl : client) :
  1 <= limit rl ->
  clients rl !! ip = Some cl ->
  Sub now (lastReset cl) > window rl ->
  (allow rl now ip).2 = (true, limit rl - 1, Add now (window rl)).
Proof.
  intros Hlimit Hcl Hpast.
  rewrite allow_opening; [done|done|].
  unfold opensWindow. by rewrite Hcl.
Qed.

Lemma allowAll_within (ip : string) (start : Time) (times : list Time) :
  forall (rl : RateLimiter) (k : Z),
    clients rl !! ip = Some {| tokens := k; lastReset := start |} ->
    0 <= k ->
    Forall (fun t => Sub t start <= window rl) times ->
    limit (allowAll rl ip times).1 = limit rl
    /\ window (allowAll rl ip times).1 = window rl
    /\ clients (allowAll rl ip times).1 !! ip
       = Some {| tokens := Z.max 0 (k - Z.of_nat (length times));
                 lastReset := start |}
    /\ forall i, (i < length times)%nat ->
         (allowAll rl ip times).2 !! i
         = Some (answerInWindow rl start k i).
Proof.
  induction times as [|now rest IH]; intros rl k Hcl Hk Hin.
  - cbn. rewrite Hcl. repeat split; [|intros; lia].
    do 2 f_equal. lia.
  - apply Forall_cons in Hin as [Hnow Hrest].
    cbn [allowAll]. rewrite (allow_within _ _ _ _ _ Hcl Hnow).
    set (k' := if k >? 0 then k - 1 else k).
    set (rl1 := with_clients rl _).
    destruct (IH rl1 k') as (Hl & Hw & Hrec & Hans).
    { subst rl1. cbn. apply lookup_insert_eq. }
    { subst k'. destruct (Z.gtb_spec k 0); lia. }
    { done. }
    destruct (allowAll rl1 ip rest) as [rl2 rs] eqn:Hrun.
    cbn [fst snd] in *. repeat split; [done|done| |].
    + rewrite Hrec. do 2 f_equal. subst k'.
      rewrite length_cons. destruct (Z.gtb_spec k 0); lia.
    + intros [|i] Hi.
      * cbn [lookup list_lookup]. f_equal. unfold answerInWindow.
        change (Z.of_nat 0) with 0.
        repeat case_match; zbool; try lia; repeat (f_equal; try lia).
      * cbn in Hi. rewrite lookup_cons. rewrite Hans by lia.
        f_equal. unfold answerInWindow. subst k' rl1.
        cbn [window with_clients]. rewrite Nat2Z.inj_succ.
        repeat case_match; zbool; try lia; repeat (f_equal; try lia).
Qed.

(** C2: let a request of client [k] at [start] open a window of a
    limiter with limit [N >= 1] and window [W], and let further requests
    of [k] follow while no more than [W] has passed since [start].  The
    first [N] of these requests are admitted, request number [i] (from 0)
    with [N - 1 - i] remaining; every later one, the [(N+1)]-th first, is
    refused with remaining 0; all of them announce the reset at
    [start + W].  The first request made more than [W] after [start] is
    admitted with [N - 1] remaining, whatever was used before. *)
Theorem C2_window_budget (rl : RateLimiter) (k : string) (start : Time)
    (later : list Time) (after : Time) :
  1 <= limit rl ->
  opensWindow rl k start ->
  Forall (fun t => Sub t start <= window rl) later ->
  Sub after start > window rl ->
  let N := limit rl in
  let calls := start :: later in
  let answers := (allowAll rl k calls).2 in
  (forall i, (i < length calls)%nat -> Z.of_nat i < N ->
     answers !! i
     = Some (true, N - 1 - Z.of_nat i, Add start (window rl)))
  /\ (forall i, (i < length calls)%nat -> N <= Z.of_nat i ->
       answers !! i = Some (false, 0, Add start (window rl)))
  /\ (allow (allowAll rl k calls).1 after k).2
     = (true, N - 1, Add after (window rl)).
Proof.
  intros Hlimit Hopen Hin Hafter N calls answers.
  subst answers calls. cbn [allowAll].
  rewrite (allow_opening _ _ _ Hlimit Hopen).
  set (rl1 := with_clients rl _).
  destruct (allowAll_within k start later rl1 (N - 1))
    as (Hl & Hw & Hrec & Hans).
  { subst rl1. cbn. apply lookup_insert_eq. }
  { subst N. lia. }
  { done. }
  destruct (allowAll rl1 k later) as [rl2 rs] eqn:Hrun.
  cbn [fst snd] in *.
  assert (forall i, (i < length (start :: later))%nat ->
            ((true, limit rl - 1, Add start (window rl)) :: rs) !! i
            = Some (answerInWindow rl start N i)) as Hall.
  { intros [|i] Hi.
    - cbn [lookup list_lookup]. f_equal. unfold answerInWindow.
      change (Z.of_nat 0) with 0. subst N.
      repeat case_match; zbool; try lia; repeat (f_equal; try lia).
    - cbn in Hi. rewrite lookup_cons, Hans by lia. f_equal.
      unfold answerInWindow. subst rl1. cbn [window with_clients].
      rewrite Nat2Z.inj_succ.
      repeat case_match; zbool; try lia; repeat (f_equal; try lia). }
  repeat split.
  - intros i Hi HiN. rewrite Hall by done. unfold answerInWindow.
    case_match; zbool; [done|lia].
  - intros i Hi HiN. rewrite Hall by done. unfold answerInWindow.
    case_match; zbool; [lia|done].
  - subst rl1. cbn [limit window with_clients] in Hl, Hw.
    erewrite allow_after; [by rewrite Hl, Hw|lia|exact Hrec|].
    cbn [lastReset]. lia.
Qed.

(** An instance of C2: limit 2, window 100 ms, three requests within
    2 ms and one 150 ms after the first. *)
Lemma C2_window_budget_witness :
  let rl := NewRateLimiter 2 (100 * Millisecond) in
  let start := memory.noon in
  let calls := [start; start + Millisecond; start + 2 * Millisecond] in
  let answers := (allowAll rl "192.168.1.1" calls).2 in
  (forall i, (i < 3)%nat -> Z.of_nat i < 2 ->
     answers !! i
     = Some (true, 2 - 1 - Z.of_nat i, Add start (100 * Millisecond)))
  /\ (forall i, (i < 3)%nat -> 2 <= Z.of_nat i ->
       answers !! i = Some (false, 0, Add start (100 * Millisecond)))
  /\ (allow (allowAll rl "192.168.1.1" calls).1
        (start + 150 * Millisecond) "192.168.1.1").2
     = (true, 2 - 1,
        Add (start + 150 * Millisecond) (100 * Millisecond)).
Proof.
  apply (C2_window_budget (NewRateLimiter 2 (100 * Millisecond))
           "192.168.1.1" memory.noon
           [memory.noon + Millisecond; memory.noon + 2 * Millisecond]
           (memory.noon + 150 * Millisecond)).
  - by vm_compute.
  - exact I.
  - repeat constructor; by vm_compute.
  - by vm_compute.
Defined.

Lemma step_config (rl : RateLimiter) (e : event) :
  limit (step rl e) = limit rl /\ window (step rl e) = window rl.
Proof. destruct e; [apply allow_config|done]. Qed.

Lemma run_cons (rl : RateLimiter) (e : event) (es : list event) :
  run rl (e :: es) = run (step rl e) es.
Proof. reflexivity. Qed.

Lemma run_config (es : list event) :
  forall rl, limit (run rl es) = limit rl /\ window (run rl es) = window rl.
Proof.
  induction es as [|e es IH]; intros rl; [done|].
  rewrite run_cons. destruct (IH (step rl e)) as [-> ->].
  apply step_config.
Qed.

(** What one step does to a record that is there before and after it:
    nothing; or, at a request of its client, one request is taken from
    the budget of the running window, or from a budget set back to the
    limit because the window had run out. *)
Lemma step_record (rl : RateLimiter) (e : event) (ip : string)
    (cl cl' : client) :
  0 <= tokens cl ->
  0 <= limit rl ->
  clients rl !! ip = Some cl ->
  clients (step rl e) !! ip = Some cl' ->
  cl' = cl
  \/ exists now, e = Request ip now
       /\ ((Sub now (lastReset cl) <= window rl
            /\ lastReset cl' = lastReset cl
            /\ tokens cl' = Z.max 0 (tokens cl - 1))
           \/ (Sub now (lastReset cl) > window rl
               /\ lastReset cl' = now
               /\ tokens cl' = Z.max 0 (limit rl - 1))).
Proof.
  intros Hcl0 Hlimit Hcl Hcl'. destruct e as [ip' now|now].
  - destruct (decide (ip' = ip)) as [->|Hne].
    + right. exists now. split; [done|].
      cbn [step] in Hcl'. unfold allow, getOrCreate, refill, expired in Hcl'.
      rewrite Hcl in Hcl'.
      destruct (Sub now (lastReset cl) >? window rl) eqn:Hexp; zbool;
        cbn [tokens lastReset] in Hcl'; [right|left];
        (destruct (_ >? 0) eqn:Hpos in Hcl'; zbool;
         cbn [fst clients with_clients] in Hcl';
         rewrite lookup_insert_eq in Hcl'; injection Hcl' as <-;
         cbn [tokens lastReset]; repeat split; lia).
    + left. cbn [step] in Hcl'. unfold allow in Hcl'.
      destruct (_ >? 0) in Hcl'; cbn [fst clients with_clients] in Hcl';
        rewrite lookup_insert_ne in Hcl' by done; congruence.
  - left. cbn [step cleanup clients with_clients] in Hcl'.
    apply map_lookup_filter_Some in Hcl' as [Hcl' _]. congruence.
Qed.

Lemma step_budgets (rl : RateLimiter) (e : event) :
  0 <= limit rl -> budgetsInRange rl -> budgetsInRange (step rl e).
Proof.
  intros Hlimit Hinv ip cl' Hcl'.
  destruct (step_config rl e) as [-> _].
  destruct (clients rl !! ip) as [cl|] eqn:Hcl.
  - pose proof (Hinv _ _ Hcl) as Hrange.
    destruct (step_record rl e ip cl cl') as [->|(now & _ & [H|H])];
      try done; lia.
  - destruct e as [ip' now|now].
    + cbn [step] in Hcl'. unfold allow, getOrCreate, refill, expired in Hcl'.
      destruct (decide (ip' = ip)) as [->|Hne].
      * rewrite Hcl in Hcl'. cbn [tokens lastReset] in Hcl'.
        destruct (_ >? window rl) in Hcl'; cbn [tokens lastReset] in Hcl';
          (destruct (_ >? 0) eqn:Hpos in Hcl'; zbool;
           cbn [fst clients with_clients] in Hcl';
           rewrite lookup_insert_eq in Hcl'; injection Hcl' as <-;
           cbn [tokens]; lia).
      * destruct (_ >? 0) in Hcl'; cbn [fst clients with_clients] in Hcl';
          rewrite lookup_insert_ne in Hcl' by done; congruence.
    + cbn [step cleanup clients with_clients] in Hcl'.
      apply map_lookup_filter_Some in Hcl' as [Hcl' _]. congruence.
Qed.

Lemma run_budgets (es : list event) :
  forall rl, 0 <= limit rl -> budgetsInRange rl -> budgetsInRange (run rl es).
Proof.
  induction es as [|e es IH]; intros rl Hlimit Hinv; [done|].
  rewrite run_cons. apply IH.
  - by destruct (step_config rl e) as [-> _].
  - by apply step_budgets.
Qed.

(** C8: in every state a limiter with a limit [N >= 0] reaches from its
    creation through requests and cleanup passes, every record holds a
    budget between 0 and [N].  A further step leaves a record that
    survives it as it was, or is a request of its client: made while
    [now - window_start <= W] it keeps the window start and takes one
    request from what is left (none when nothing is left); only when
    [now - window_start > W] is the window restarted at [now] and the
    budget set back to [N], of which this request takes one. *)
Theorem C8_budget_never_negative (N : Z) (W : Duration)
    (history : list event) :
  0 <= N ->
  let rl := run (NewRateLimiter N W) history in
  (forall ip cl, clients rl !! ip = Some cl -> 0 <= tokens cl <= N)
  /\ forall (e : event) (ip : string) (cl cl' : client),
       clients rl !! ip = Some cl ->
       clients (step rl e) !! ip = Some cl' ->
       cl' = cl
       \/ exists now, e = Request ip now
            /\ ((Sub now (lastReset cl) <= W
                 /\ lastReset cl' = lastReset cl
                 /\ tokens cl' = Z.max 0 (tokens cl - 1))
                \/ (Sub now (lastReset cl) > W
                    /\ lastReset cl' = now
                    /\ tokens cl' = Z.max 0 (N - 1))).
Proof.
  intros HN rl.
  destruct (run_config history (NewRateLimiter N W)) as [Hl Hw].
  fold rl in Hl, Hw. cbn in Hl, Hw.
  assert (budgetsInRange rl) as Hinv.
  { apply run_budgets; [done|]. intros ip cl Hcl. cbn in Hcl.
    by rewrite lookup_empty in Hcl. }
  split.
  - intros ip cl Hcl. rewrite <- Hl. exact (Hinv ip cl Hcl).
  - intros e ip cl cl' Hcl Hcl'. rewrite <- Hl, <- Hw.
    apply step_record; [|lia|done|done]. exact (proj1 (Hinv ip cl Hcl)).
Qed.

(** An instance of C8: limit 2, window 100 ms, two requests and a
    cleanup pass. *)
Lemma C8_budget_never_negative_witness :
  let rl :=
    run (NewRateLimiter 2 (100 * Millisecond))
      [Request "192.168.1.1" memory.noon;
       Request "192.168.1.1" (memory.noon + Millisecond);
       Tick (memory.noon + 100 * Millisecond)] in
  (forall ip cl, clients rl !! ip = Some cl -> 0 <= tokens cl <= 2)
  /\ forall (e : event) (ip : string) (cl cl' : client),
       clients rl !! ip = Some cl ->
       clients (step rl e) !! ip = Some cl' ->
       cl' = cl
       \/ exists now, e = Request ip now
            /\ ((Sub now (lastReset cl) <= 100 * Millisecond
                 /\ lastReset cl' = lastReset cl
                 /\ tokens cl' = Z.max 0 (tokens cl - 1))
                \/ (Sub now (lastReset cl) > 100 * Millisecond
                    /\ lastReset cl' = now
                    /\ tokens cl' = Z.max 0 (2 - 1))).
Proof.
  apply (C8_budget_never_negative 2 (100 * Millisecond)
           [Request "192.168.1.1" memory.noon;
            Request "192.168.1.1" (memory.noon + Millisecond);
            Tick (memory.noon + 100 * Millisecond)]).
  lia.
Defined.

End Admission.

(** ** The credential service *)

Section Credentials.
Import strings models services unicode.
Context `{Ext : Externals} `{Txt : unicode.Strings}
  {R : Type} `{Repo : !UserRepository R}.

Lemma isEmpty_true (s : string) : isEmpty s = true -> s = EmptyString.
Proof. by destruct s. Qed.

Lemma set_PasswordHash_empty (u : User) :
  PasswordHash (set_PasswordHash EmptyString u) = EmptyString.
Proof. reflexivity. Qed.

(** C5, amended: when the store has no record for the e-mail in one run
    and an active record whose hash does not verify the password in the
    other, [Login] returns the same error in both runs.  For a non-empty
    e-mail and a non-empty password this error is an [AppError] with the
    status 401 and the message invalid email or password; for an empty
    e-mail or an empty password it is the [InvalidInput] error of the
    missing field, returned before the store is read.  The store is asked
    for the e-mail as [strings.ToLower] and [strings.TrimSpace] leave it,
    whatever its code points. *)
Theorem C5_login_failures_indistinguishable (s : AuthService)
    (absent present : R) (now : gotime.Time) (email password : string)
    (e : error) (u : User) :
  GetByEmail absent (ToLower (TrimSpace email)) = Fail e ->
  GetByEmail present (ToLower (TrimSpace email)) = Ok u ->
  IsActive u = true ->
  ComparePasswords (PasswordHash u) password = false ->
  Login s absent now email password = Login s present now email password
  /\ (email <> EmptyString -> password <> EmptyString ->
      exists err,
        Login s absent now email password = Fail (App err)
        /\ appErrors.Message err = "invalid email or password"
        /\ appErrors.StatusCode err = 401)
  /\ (email = EmptyString ->
      Login s absent now email password
      = Fail (InvalidInput "email is required"))
  /\ (email <> EmptyString -> password = EmptyString ->
      Login s absent now email password
      = Fail (InvalidInput "password is required")).
Proof.
  intros Habsent Hpresent Hactive Hwrong. unfold Login.
  rewrite Habsent, Hpresent, Hactive, Hwrong. cbn [negb].
  split; [reflexivity|]. split; [|split].
  - intros He Hp. rewrite !isEmpty_false by done. by eexists.
  - by intros ->.
  - intros He ->. by rewrite isEmpty_false.
Qed.

(** C10, amended: for an e-mail whose record is not active, [Login] with
    a non-empty e-mail and any non-empty password returns [Inactive],
    whether or not the password verifies: nothing is assumed of the
    comparison, which comes after the activity check.  This answer is
    not the one a store without a record for the e-mail gives.  An empty
    e-mail or an empty password is refused as [InvalidInput] before the
    store is read. *)
Theorem C10_inactive_before_password (s : AuthService) (repo unknown : R)
    (now : gotime.Time) (email password : string) (u : User) (e : error) :
  GetByEmail repo (ToLower (TrimSpace email)) = Ok u ->
  IsActive u = false ->
  GetByEmail unknown (ToLower (TrimSpace email)) = Fail e ->
  (email <> EmptyString -> password <> EmptyString ->
   Login s repo now email password = Fail Inactive
   /\ (forall other, other <> EmptyString ->
         Login s repo now email other = Login s repo now email password)
   /\ Login s unknown now email password
      <> Login s repo now email password)
  /\ (email = EmptyString ->
      Login s repo now email password
      = Fail (InvalidInput "email is required"))
  /\ (email <> EmptyString -> password = EmptyString ->
      Login s repo now email password
      = Fail (InvalidInput "password is required")).
Proof.
  intros Hu Hinactive Hunknown. unfold Login.
  rewrite Hu, Hinactive, Hunknown. cbn [negb].
  split; [|split].
  - intros He Hp. rewrite !isEmpty_false by done.
    split; [done|]. split; [|discriminate].
    intros other Ho. by rewrite isEmpty_false.
  - by intros ->.
  - intros He ->. by rewrite isEmpty_false.
Qed.

(** C6: [RefreshToken] refuses a token that validates with the class
    access as [InvalidTokenType]; it refuses a token that validates
    with the class refresh, whose subject the store returns as not
    active, as [Inactive]; and a success is for a token that validates
    with the class refresh and whose subject the store returns as an
    active record.  What it returns then is one token: the compact token
    whose payload names that record, the class access and the access
    lifetime from this moment, signed under the secret of the service,
    with the bearer scheme and the lifetime in seconds; from this moment
    until its expiry the token validates as an access token of that
    record.  The response has no refresh token. *)
Theorem C6_refresh (s : AuthService) (repo : R) (now : gotime.Time) :
  (forall tok claims,
      utils_jwt.ValidateToken tok (jwtSecret s) now = Ok claims ->
      utils_jwt.TokenType claims = "access" ->
      RefreshToken s repo now tok = Fail InvalidTokenType)
  /\ (forall tok claims id u,
        utils_jwt.ValidateToken tok (jwtSecret s) now = Ok claims ->
        utils_jwt.TokenType claims = "refresh" ->
        uuid_Parse (utils_jwt.UserID claims) = Some id ->
        GetByID repo id = Ok u ->
        IsActive u = false ->
        RefreshToken s repo now tok = Fail Inactive)
  /\ (forall tok resp,
        RefreshToken s repo now tok = Ok resp ->
        exists claims id u,
          utils_jwt.ValidateToken tok (jwtSecret s) now = Ok claims
          /\ utils_jwt.TokenType claims = "refresh"
          /\ uuid_Parse (utils_jwt.UserID claims) = Some id
          /\ GetByID repo id = Ok u
          /\ IsActive u = true
          /\ rt_AccessToken resp = accessTokenOf s now u
          /\ classOf (rt_AccessToken resp) = Some "access"
          /\ rt_TokenType resp = "Bearer"
          /\ rt_ExpiresIn resp
             = gotime.Seconds_int (accessTokenDuration s)
          /\ forall t,
               now <= t ->
               t < jwt.NewNumericDate
                     (gotime.Add now (accessTokenDuration s)) ->
               utils_jwt.ValidateToken (rt_AccessToken resp)
                 (jwtSecret s) t
               = Ok {| utils_jwt.UserID := uuid_String (ID u);
                       utils_jwt.Email := json.roundTrip (Email u);
                       utils_jwt.TokenType := "access" |}).
Proof.
  split; [|split].
  - intros tok claims Hvalid Hclass. unfold RefreshToken.
    assert (jwt.isEmpty tok = false) as ->.
    { unfold utils_jwt.ValidateToken in Hvalid.
      by destruct (jwt.isEmpty tok). }
    by rewrite Hvalid, Hclass.
  - intros tok claims id u Hvalid Hclass Hid Hu Hinactive.
    unfold RefreshToken.
    assert (jwt.isEmpty tok = false) as ->.
    { unfold utils_jwt.ValidateToken in Hvalid.
      by destruct (jwt.isEmpty tok). }
    by rewrite Hvalid, Hclass, Hid, Hu, Hinactive.
  - intros tok resp. unfold RefreshToken, generateAccessToken.
    destruct (jwt.isEmpty tok); [discriminate|].
    destruct (utils_jwt.ValidateToken tok (jwtSecret s) now)
      as [claims|] eqn:Hvalid; [|discriminate].
    destruct (String.eqb_spec (utils_jwt.TokenType claims) "refresh")
      as [Hclass|]; [|discriminate]. cbn [negb].
    destruct (uuid_Parse (utils_jwt.UserID claims)) as [id|] eqn:Hid;
      [|discriminate].
    destruct (GetByID repo id) as [u|] eqn:Hu; [|discriminate].
    destruct (IsActive u) eqn:Hactive; [|discriminate]. cbn [negb].
    destruct (utils_jwt.GenerateAccessToken _ _ _ _ _) as [access|]
      eqn:Hgen; [|discriminate].
    intros [= <-]. cbn [rt_AccessToken rt_TokenType rt_ExpiresIn].
    unfold utils_jwt.GenerateAccessToken in Hgen.
    pose proof (generateToken_inv _ _ _ _ _ _ _ Hgen)
      as (Hidtext & Hemail & Hsecret & Httl & _).
    rewrite generateToken_ok in Hgen by done. injection Hgen as <-.
    exists claims, id, u.
    do 5 (split; [done|]).
    split.
    { unfold accessTokenOf, tokenOf, jwt.SignedString.
      cbn [jwt.Decoded utils_jwt.customClaims_Claims utils_jwt.c_UserID
           utils_jwt.c_Email utils_jwt.c_TokenType utils_jwt.c_Registered].
      by rewrite uuid_String_roundTrip. }
    do 3 (split; [done|]).
    intros t Hfrom Hbefore.
    rewrite ValidateToken_signed by done.
    rewrite bool_decide_eq_true_2 by done.
    unfold jwt.Validate, jwt.verifyExpiresAt, jwt.verifyNotBefore.
    cbn [jwt.GetExpirationTime jwt.GetNotBefore
         utils_jwt.customClaims_Claims utils_jwt.c_Registered
         jwt.ExpiresAt jwt.NotBefore utils_jwt.c_UserID utils_jwt.c_Email
         utils_jwt.c_TokenType].
    unfold jwt.NewNumericDate, jwt.TimePrecision, gotime.Before in *.
    pose proof (Truncate_Second_le now).
    assert ((t <? gotime.Truncate
                    (gotime.Add now (accessTokenDuration s)) gotime.Second)
            = true) as -> by lia.
    assert ((t <? gotime.Truncate now gotime.Second) = false) as -> by lia.
    cbn [negb app]. by rewrite uuid_String_roundTrip.
Qed.

(** C9: the user record in a success of [Register], of [Login] and of
    [ValidateAccessToken] has an empty password hash. *)
Theorem C9_password_hash_stripped :
  (forall s (repo repo' : R) now id salt req (u : User),
      Register s repo now id salt req = (repo', Ok u) ->
      PasswordHash u = EmptyString)
  /\ (forall s (repo : R) now email password resp,
        Login s repo now email password = Ok resp ->
        PasswordHash (User_ resp) = EmptyString)
  /\ (forall s (repo : R) now tok (u : User),
        ValidateAccessToken s repo now tok = Ok u ->
        PasswordHash u = EmptyString).
Proof.
  split; [|split].
  - intros s repo repo' now id salt req u. unfold Register.
    repeat case_match; try discriminate. by intros [= _ <-].
  - intros s repo now email password resp. unfold Login.
    repeat case_match; try discriminate. by intros [= <-].
  - intros s repo now tok u. unfold ValidateAccessToken.
    repeat case_match; try discriminate. by intros [= <-].
Qed.

End Credentials.

(** ** The credential service on the store in memory *)

Section CredentialsInMemory.
Import strings models services memory unicode.

(** C5, as stated for every password, fails at the empty password: with
    an active record whose hash does not verify it, and equally with no
    record, [Login] answers that the password is required, an
    [InvalidInput] error that is no failure of the credentials. *)
Lemma C5_empty_password_refuted :
  let email := "john.doe@example.com" in
  GetByEmail ([] : store) (ToLower (TrimSpace email))
    = Fail (App (appErrors.NewNotFound "user not found"))
  /\ GetByEmail [john true] (ToLower (TrimSpace email)) = Ok (john true)
  /\ IsActive (john true) = true
  /\ ComparePasswords (PasswordHash (john true)) EmptyString = false
  /\ Login service ([] : store) noon email EmptyString
     = Fail (InvalidInput "password is required")
  /\ Login service [john true] noon email EmptyString
     = Fail (InvalidInput "password is required")
  /\ errorMessage (InvalidInput "password is required")
     <> "invalid email or password"
  /\ appErrors.Err (appErrors.NewBadRequest "password is required")
     = appErrors.ErrInvalidInput.
Proof. vm_compute. repeat split; discriminate. Qed.

(** An instance of C5: a wrong password for a known account and the
    same login against an empty store. *)
Lemma C5_login_failures_indistinguishable_witness :
  let email := "John.Doe@example.com " in
  let password := "WrongPassword123!" in
  Login service ([] : store) noon email password
  = Login service [john true] noon email password
  /\ exists err,
       Login service ([] : store) noon email password = Fail (App err)
       /\ appErrors.Message err = "invalid email or password"
       /\ appErrors.StatusCode err = 401.
Proof.
  destruct (C5_login_failures_indistinguishable service [] [john true] noon
              "John.Doe@example.com " "WrongPassword123!"
              (App (appErrors.NewNotFound "user not found")) (john true))
    as (Hsame & Herr & _); [by vm_compute..|].
  split; [done|]. by apply Herr.
Defined.

(** C10, as stated for every supplied password, fails at the empty
    password: for a record that is not active [Login] answers that the
    password is required, not [Inactive]. *)
Lemma C10_empty_password_refuted :
  let email := "john.doe@example.com" in
  GetByEmail [john false] (ToLower (TrimSpace email)) = Ok (john false)
  /\ IsActive (john false) = false
  /\ Login service [john false] noon email EmptyString
     = Fail (InvalidInput "password is required")
  /\ Login service [john false] noon email EmptyString <> Fail Inactive.
Proof. vm_compute. repeat split; discriminate. Qed.

(** An instance of C10: the right password and a wrong one for an
    account that is not active, and the same login against an empty
    store. *)
Lemma C10_inactive_before_password_witness :
  ComparePasswords (PasswordHash (john false)) "SecurePass123!" = true
  /\ Login service [john false] noon "john.doe@example.com"
       "SecurePass123!" = Fail Inactive
  /\ Login service [john false] noon "john.doe@example.com"
       "WrongPassword123!"
     = Login service [john false] noon "john.doe@example.com"
         "SecurePass123!"
  /\ Login service ([] : store) noon "john.doe@example.com"
       "SecurePass123!"
     <> Login service [john false] noon "john.doe@example.com"
          "SecurePass123!".
Proof.
  split; [by vm_compute|].
  destruct (C10_inactive_before_password service [john false] [] noon
              "john.doe@example.com" "SecurePass123!" (john false)
              (App (appErrors.NewNotFound "user not found")))
    as (Hinactive & _); [by vm_compute..|].
  destruct Hinactive as (Herr & Hany & Hdiffers); [discriminate..|].
  split; [done|]. split; [by apply Hany|done].
Defined.

(** An instance of C6: the access and the refresh token issued for
    [john] at noon, presented a minute later. *)
Lemma C6_refresh_witness :
  let now := noon + gotime.Minute in
  RefreshToken service [john true] now accessToken = Fail InvalidTokenType
  /\ RefreshToken service [john false] now refreshToken = Fail Inactive
  /\ exists resp,
       RefreshToken service [john true] now refreshToken = Ok resp
       /\ rt_AccessToken resp = accessTokenOf service now (john true)
       /\ classOf (rt_AccessToken resp) = Some "access"
       /\ rt_ExpiresIn resp = 900
       /\ utils_jwt.ValidateToken (rt_AccessToken resp) (jwtSecret service)
            (now + 14 * gotime.Minute)
          = Ok {| utils_jwt.UserID := ID (john true);
                  utils_jwt.Email := Email (john true);
                  utils_jwt.TokenType := "access" |}.
Proof.
  intros now.
  destruct (C6_refresh service [john true] now) as (Hclass & _ & Hok).
  destruct (C6_refresh service [john false] now) as (_ & Hinactive & _).
  split; [|split].
  - eapply Hclass; by vm_compute.
  - eapply Hinactive; by vm_compute.
  - destruct (RefreshToken service [john true] now refreshToken)
      as [resp|] eqn:Hresp; [|by vm_compute in Hresp].
    exists resp. split; [done|].
    destruct (Hok _ _ Hresp)
      as (claims & id & u & _ & _ & Hid & Hu & _ & Htok & Hc & _ & Hexp
          & Hvalid).
    assert (u = john true) as ->.
    { clear -Hu. cbn [GetByID repository] in Hu. unfold findBy in Hu.
      cbn [List.find] in Hu.
      destruct (String.eqb (ID (john true)) id);
        [by injection Hu|discriminate]. }
    split; [done|]. split; [done|]. split; [by rewrite Hexp|].
    rewrite Hvalid; [done|by vm_compute..].
Defined.

(** An instance of C9: a registration, a login and a token lookup that
    succeed. *)
Lemma C9_password_hash_stripped_witness :
  (exists db u,
      Register service ([] : store) noon
        "6ba7b810-9dad-11d1-80b4-00c04fd430c9" "salt"
        (request (gotime.Date 1990 1 1)) = (db, Ok u)
      /\ PasswordHash u = EmptyString)
  /\ (exists resp,
        Login service [john true] noon "john.doe@example.com"
          "SecurePass123!" = Ok resp
        /\ PasswordHash (User_ resp) = EmptyString)
  /\ (exists u,
        ValidateAccessToken service [john true] noon accessToken = Ok u
        /\ PasswordHash u = EmptyString).
Proof.
  destruct (C9_password_hash_stripped (Ext := externals) (Txt := text)
              (R := store))
    as (Hregister & Hlogin & Hvalidate).
  split; [|split].
  - destruct (Register (Ext := externals) service ([] : store) noon
                "6ba7b810-9dad-11d1-80b4-00c04fd430c9" "salt"
                (request (gotime.Date 1990 1 1)))
      as [db [u|]] eqn:Hrun; [|by vm_compute in Hrun].
    exists db, u. split; [reflexivity|]. exact (Hregister _ _ _ _ _ _ _ _ Hrun).
  - destruct (Login (Ext := externals) service [john true] noon
                "john.doe@example.com" "SecurePass123!")
      as [resp|] eqn:Hrun; [|by vm_compute in Hrun].
    exists resp. split; [reflexivity|]. exact (Hlogin _ _ _ _ _ _ Hrun).
  - destruct (ValidateAccessToken (Ext := externals) service [john true]
                noon accessToken)
      as [u|] eqn:Hrun; [|by vm_compute in Hrun].
    exists u. split; [reflexivity|]. exact (Hvalidate _ _ _ _ _ Hrun).
Defined.

End CredentialsInMemory.

(** * Further properties *)

(** ** The two password validators *)

Section Validators.
Import strings.

Lemma lowerByte_digit (c : ascii) : isDigit (lowerByte c) = isDigit c.
Proof. destruct c as [[] [] [] [] [] [] [] []]; reflexivity. Qed.

Lemma lowerByte_utils_symbol (c : ascii) :
  ContainsRune utils_password.specialChars (lowerByte c)
  = ContainsRune utils_password.specialChars c.
Proof. destruct c as [[] [] [] [] [] [] [] []]; reflexivity. Qed.

Lemma lowerByte_service_symbol (c : ascii) :
  ContainsRune services.specialClass (lowerByte c)
  = ContainsRune services.specialClass c.
Proof. destruct c as [[] [] [] [] [] [] [] []]; reflexivity. Qed.

Lemma utils_symbol_is_service_symbol (c : ascii) :
  ContainsRune utils_password.specialChars c = true ->
  ContainsRune services.specialClass c = true.
Proof. destruct c as [[] [] [] [] [] [] [] []]; vm_compute; congruence. Qed.

Lemma any_ToLower (q : ascii -> bool) (p : string) :
  (forall c, q (lowerByte c) = q c) -> any q (ToLower p) = any q p.
Proof. intros Hq. induction p as [|c p IH]; [done|]. cbn. by rewrite Hq, IH. Qed.

Lemma any_mono (q q' : ascii -> bool) (p : string) :
  (forall c, q c = true -> q' c = true) ->
  any q p = true -> any q' p = true.
Proof.
  intros Hq. induction p as [|c p IH]; [done|]. cbn.
  intros [H|H]%orb_true_iff; apply orb_true_iff; [left|right]; auto.
Qed.

Lemma length_ToLower (p : string) :
  String.length (ToLower p) = String.length p.
Proof. induction p as [|c p IH]; [done|]. cbn. by rewrite IH. Qed.

(** No key of the deny-list of password.go holds one of its symbols. *)
Lemma utils_deny_list_has_no_symbol (k : string) :
  index_bool utils_password.commonPasswords k = true ->
  any (ContainsRune utils_password.specialChars) k = false.
Proof.
  unfold index_bool, utils_password.commonPasswords.
  destruct (list_to_map _ !! k) as [b|] eqn:Hk; [|done].
  intros _. apply elem_of_list_to_map_2 in Hk.
  repeat (apply elem_of_cons in Hk as [Hk|Hk];
          [injection Hk as -> ->; reflexivity|]).
  by apply elem_of_nil in Hk.
Qed.

(** The only key of the deny-list of the service that holds one of its
    symbols. *)
Lemma service_deny_list_symbol (k : string) :
  index_bool services.commonPasswords k = true ->
  any (ContainsRune services.specialClass) k = true ->
  k = "password123!".
Proof.
  unfold index_bool, services.commonPasswords.
  destruct (list_to_map _ !! k) as [b|] eqn:Hk; [|done].
  intros _. apply elem_of_list_to_map_2 in Hk.
  repeat (apply elem_of_cons in Hk as [Hk|Hk];
          [injection Hk as -> ->; first [reflexivity | discriminate]|]).
  by apply elem_of_nil in Hk.
Qed.

(** The outcomes of [ValidatePasswordStrength]. *)
Lemma utils_validator_outcomes (p : string) :
  utils_password.ValidatePasswordStrength p
    <> Some utils_password.errCommon
  /\ (utils_password.ValidatePasswordStrength p = None
      <-> 8 <= len p <= 72
          /\ utils_password.hasUpper p = true
          /\ utils_password.hasLower p = true
          /\ utils_password.hasNumber p = true
          /\ utils_password.hasSpecial p = true).
Proof.
  unfold utils_password.ValidatePasswordStrength.
  destruct (len p <? 8) eqn:Hmin; zbool;
    [split; [discriminate|split; [discriminate|lia]]|].
  destruct (len p >? 72) eqn:Hmax; zbool;
    [split; [discriminate|split; [discriminate|lia]]|].
  destruct (utils_password.hasUpper p);
    [|split; [discriminate|split; [discriminate|intuition discriminate]]].
  destruct (utils_password.hasLower p);
    [|split; [discriminate|split; [discriminate|intuition discriminate]]].
  destruct (utils_password.hasNumber p);
    [|split; [discriminate|split; [discriminate|intuition discriminate]]].
  destruct (utils_password.hasSpecial p) eqn:Hsym;
    [|split; [discriminate|split; [discriminate|intuition discriminate]]].
  cbn [negb].
  destruct (index_bool utils_password.commonPasswords (ToLower p)) eqn:Hdeny.
  - apply utils_deny_list_has_no_symbol in Hdeny.
    rewrite (any_ToLower _ _ lowerByte_utils_symbol) in Hdeny.
    unfold utils_password.hasSpecial in Hsym. congruence.
  - split; [discriminate|]. split; [intros _; repeat split; lia|done].
Qed.

(** X1: [ValidatePasswordStrength] accepts exactly the passwords of 8 to
    72 bytes that hold an upper-case letter, a lower-case letter, a digit
    and one of its symbols, and it never answers that a password is too
    common: every key of its deny-list lacks a symbol, so the deny-list
    is only consulted for passwords it cannot hold. *)
Theorem X1_utils_deny_list_unreachable (p : string) :
  utils_password.ValidatePasswordStrength p
    <> Some utils_password.errCommon
  /\ (utils_password.ValidatePasswordStrength p = None
      <-> 8 <= len p <= 72
          /\ utils_password.hasUpper p = true
          /\ utils_password.hasLower p = true
          /\ utils_password.hasNumber p = true
          /\ utils_password.hasSpecial p = true).
Proof. exact (utils_validator_outcomes p). Qed.

(** When [validatePassword] finds a password too common. *)
Lemma service_too_common (p : string) :
  services.validatePassword p = Some (serviceReason NotCommon)
  <-> ToLower p = "password123!"
      /\ any isUpper p = true /\ any isLower p = true.
Proof.
  unfold services.validatePassword. split.
  - destruct (len p <? 8); [discriminate|].
    destruct (len p >? 72); [discriminate|].
    destruct (any isUpper p); [|discriminate].
    destruct (any isLower p); [|discriminate].
    destruct (any isDigit p); [|discriminate].
    destruct (any (ContainsRune services.specialClass) p) eqn:Hsym;
      [|discriminate].
    cbn [negb].
    destruct (index_bool services.commonPasswords (ToLower p)) eqn:Hdeny;
      [|discriminate].
    intros _. split; [|done].
    apply service_deny_list_symbol; [done|].
    by rewrite (any_ToLower _ _ lowerByte_service_symbol).
  - intros (Hlow & -> & ->).
    assert (len p = 12) as ->.
    { unfold len. by rewrite <- length_ToLower, Hlow. }
    rewrite <- (any_ToLower isDigit p lowerByte_digit).
    rewrite <- (any_ToLower _ p lowerByte_service_symbol).
    by rewrite Hlow.
Qed.

(** X2: [validatePassword] answers that a password is too common exactly
    when the password, lower-cased, is password123! and holds both an
    upper-case and a lower-case letter: of the fourteen keys of its
    deny-list this is the only one a password that passed the earlier
    rules can match. *)
Theorem X2_service_deny_list_reach (p : string) :
  services.validatePassword p = Some (serviceReason NotCommon)
  <-> ToLower p = "password123!"
      /\ any isUpper p = true /\ any isLower p = true.
Proof. exact (service_too_common p). Qed.

(** X3: a password [ValidatePasswordStrength] accepts is accepted by
    [validatePassword] as well, unless it is a spelling of password123!,
    which [validatePassword] refuses as too common. *)
Theorem X3_utils_accepts_then_service (p : string) :
  utils_password.ValidatePasswordStrength p = None ->
  services.validatePassword p
  = if String.eqb (ToLower p) "password123!"
    then Some (serviceReason NotCommon) else None.
Proof.
  intros Hok. apply (utils_validator_outcomes p) in Hok
    as (Hlen & Hup & Hlow & Hnum & Hsym).
  unfold utils_password.hasUpper, utils_password.hasLower,
    utils_password.hasNumber, utils_password.hasSpecial in *.
  apply (any_mono _ _ _ utils_symbol_is_service_symbol) in Hsym.
  destruct (String.eqb_spec (ToLower p) "password123!") as [Heq|Hne].
  - by apply service_too_common.
  - unfold services.validatePassword.
    destruct (Z.ltb_spec (len p) 8); [lia|].
    destruct (Z.gtb_spec (len p) 72); [lia|].
    rewrite Hup, Hlow, Hnum, Hsym. cbn [negb].
    destruct (index_bool services.commonPasswords (ToLower p)) eqn:Hdeny;
      [|done].
    exfalso. apply Hne. apply service_deny_list_symbol; [done|].
    by rewrite (any_ToLower _ _ lowerByte_service_symbol).
Qed.

End Validators.

(** An instance of X3: a spelling of password123! that
    [ValidatePasswordStrength] accepts. *)
Lemma X3_utils_accepts_then_service_witness :
  utils_password.ValidatePasswordStrength "Password123!" = None
  /\ services.validatePassword "Password123!"
     = Some (serviceReason NotCommon).
Proof.
  split; [reflexivity|].
  apply (X3_utils_accepts_then_service "Password123!"). reflexivity.
Defined.

(** ** Hashing after validation *)

Section Hashing.
Import strings services.
Context `{Ext : Externals}.

(** After [validatePassword], [HashPassword] is bcrypt. *)
Lemma hash_after_validation (salt password : string) :
  validatePassword password = None ->
  HashPassword salt password
  = match bcrypt_GenerateFromPassword salt password with
    | Ok hash => Ok hash
    | Fail e => Fail ("failed to hash password: " +:+ e)
    end.
Proof.
  unfold validatePassword, HashPassword. intros Hok.
  destruct (len password <? 8) eqn:Hmin; [discriminate|]. zbool.
  destruct (len password >? 72) eqn:Hmax; [discriminate|].
  destruct password; [unfold len in Hmin; cbn in Hmin; lia|]. cbn [isEmpty].
  by destruct (bcrypt_GenerateFromPassword _ _).
Qed.

(** X4: a password that [validatePassword] accepts always reaches bcrypt
    in [HashPassword]: neither the guard against the empty password nor
    the guard against more than 72 bytes can fire, and the outcome is that
    of [bcrypt.GenerateFromPassword]. *)
Theorem X4_validated_password_is_hashed (salt password : string) :
  validatePassword password = None ->
  HashPassword salt password
  = match bcrypt_GenerateFromPassword salt password with
    | Ok hash => Ok hash
    | Fail e => Fail ("failed to hash password: " +:+ e)
    end.
Proof. exact (hash_after_validation salt password). Qed.

End Hashing.

(** An instance of X4 with the stand-in hash. *)
Lemma X4_validated_password_is_hashed_witness :
  services.HashPassword (Ext := memory.externals) "salt" "Secure123!"
  = Ok "$2a$12$salt$Secure123!".
Proof.
  apply (X4_validated_password_is_hashed (Ext := memory.externals)
           "salt" "Secure123!").
  reflexivity.
Defined.

(** ** Tokens: what a validated token is *)

Section TokenShape.
Import gotime utils_jwt.

(** What a success of [ValidateToken] says of the token. *)
Lemma ValidateToken_inv (tok : token) (secret : string)
    (now : Time) (c : TokenClaims) :
  ValidateToken tok secret now = Ok c ->
  exists alg payload,
    tok = jwt.Compact alg payload (jwt.HMACSum secret alg payload)
    /\ jwt.isHMAC alg = true
    /\ secret <> EmptyString
    /\ c = {| UserID := c_UserID payload; Email := c_Email payload;
              TokenType := c_TokenType payload |}
    /\ (forall exp, jwt.ExpiresAt (c_Registered payload) = Some exp ->
          now < exp)
    /\ (forall nbf, jwt.NotBefore (c_Registered payload) = Some nbf ->
          nbf <= now).
Proof.
  unfold ValidateToken. destruct tok as [alg payload sig|raw].
  - cbn [jwt.isEmpty]. destruct secret as [|a secret]; [discriminate|].
    cbn [strings.isEmpty jwt.ParseWithClaims]. unfold keyFunc.
    destruct (jwt.isHMAC alg) eqn:Halg; cbn [negb];
      [|by repeat case_match].
    unfold jwt.Verify. case_bool_decide as Hsig; cbn [negb];
      [|by repeat case_match].
    destruct (jwt.Validate payload now) as [|e errs] eqn:Hv;
      [|by repeat case_match].
    intros [= <-]. exists alg, payload. subst sig.
    unfold jwt.Validate, jwt.verifyExpiresAt, jwt.verifyNotBefore in Hv.
    cbn [jwt.GetExpirationTime jwt.GetNotBefore customClaims_Claims] in Hv.
    apply app_eq_nil in Hv as [Hexp Hnbf].
    repeat split; try done.
    + intros exp Hsome. rewrite Hsome in Hexp. unfold Before in Hexp.
      destruct (Z.ltb_spec now exp); [done|discriminate].
    + intros nbf Hsome. rewrite Hsome in Hnbf. unfold Before in Hnbf.
      destruct (Z.ltb_spec now nbf); [discriminate|done].
  - cbn [jwt.isEmpty jwt.ParseWithClaims]. by repeat case_match.
Qed.

(** X5: [ValidateToken] returns claims only for a compact token of an
    HMAC method whose signature was made under this very secret over
    exactly the payload it carries, with a non-empty secret, before the
    expiry and not before the not-before instant of that payload; the
    claims returned are those of the payload. *)
Theorem X5_validated_token_is_signed (tok : token) (secret : string)
    (now : Time) (c : TokenClaims) :
  ValidateToken tok secret now = Ok c ->
  exists alg payload,
    tok = jwt.Compact alg payload (jwt.HMACSum secret alg payload)
    /\ jwt.isHMAC alg = true
    /\ secret <> EmptyString
    /\ c = {| UserID := c_UserID payload; Email := c_Email payload;
              TokenType := c_TokenType payload |}
    /\ (forall exp, jwt.ExpiresAt (c_Registered payload) = Some exp ->
          now < exp)
    /\ (forall nbf, jwt.NotBefore (c_Registered payload) = Some nbf ->
          nbf <= now).
Proof. exact (ValidateToken_inv tok secret now c). Qed.

(** X6: a token whose lifetime ends within the whole second in which it
    is issued is never valid: its expiry, cut to the second, is not after
    the instant of issuance, so every validation from that instant on
    fails as expired. *)
Theorem X6_lifetime_within_the_second
    (userID email class secret : string) (ttl : Duration)
    (now t : Time) :
  userID <> EmptyString -> email <> EmptyString ->
  secret <> EmptyString -> 0 < ttl ->
  now mod Second + ttl < Second ->
  now <= t ->
  exists tok,
    generateToken userID email class ttl secret now = Ok tok
    /\ ValidateToken tok secret t = Fail errExpired.
Proof.
  intros Hu He Hs Httl Hshort Ht.
  eexists. split; [by apply generateToken_ok|].
  rewrite ValidateToken_signed by done.
  rewrite bool_decide_eq_true_2 by done.
  unfold jwt.Validate, jwt.verifyExpiresAt, jwt.verifyNotBefore.
  cbn [jwt.GetExpirationTime jwt.GetNotBefore customClaims_Claims
       c_Registered jwt.ExpiresAt jwt.NotBefore].
  unfold jwt.NewNumericDate, jwt.TimePrecision, Before.
  pose proof (Truncate_Second_le now) as Hnbf.
  assert (Truncate (Add now ttl) Second <= now) as Hexp.
  { unfold Truncate, Add, Second in *. cbn [Z.leb] in *.
    pose proof (Z.mod_pos_bound now 1000000000 ltac:(lia)).
    assert ((now + ttl) mod 1000000000 = now mod 1000000000 + ttl) as ->;
      [|cbn; lia].
    symmetry. apply Z.mod_unique_pos with (q := now / 1000000000); [lia|].
    pose proof (Z.div_mod now 1000000000 ltac:(lia)). lia. }
  destruct (Z.ltb_spec t (Truncate (Add now ttl) Second)); [lia|].
  destruct (Z.ltb_spec t (Truncate now Second)); [lia|done].
Qed.

End TokenShape.

(** An instance of X5: the access token issued for [john] at noon,
    validated a minute later. *)
Lemma X5_validated_token_is_signed_witness :
  exists alg payload,
    memory.accessToken
    = jwt.Compact alg payload
        (jwt.HMACSum (services.jwtSecret memory.service) alg payload)
    /\ jwt.isHMAC alg = true
    /\ utils_jwt.c_TokenType payload = "access".
Proof.
  destruct (X5_validated_token_is_signed memory.accessToken
              (services.jwtSecret memory.service)
              (memory.noon + gotime.Minute)
              {| utils_jwt.UserID := "6ba7b810-9dad-11d1-80b4-00c04fd430c8";
                 utils_jwt.Email := "john.doe@example.com";
                 utils_jwt.TokenType := "access" |})
    as (alg & payload & Htok & Halg & _ & Hclaims & _); [by vm_compute|].
  exists alg, payload. repeat split; [done|done|].
  by injection Hclaims as _ _ <-.
Defined.

(** An instance of X6: a lifetime of 100 ms, issued a quarter of a
    second past noon. *)
Lemma X6_lifetime_within_the_second_witness :
  exists tok,
    utils_jwt.generateToken "u-1" "a@b.com" "access"
      (100 * gotime.Millisecond) "k1" memory.noon = Ok tok
    /\ utils_jwt.ValidateToken tok "k1" memory.noon
       = Fail utils_jwt.errExpired.
Proof.
  apply (X6_lifetime_within_the_second "u-1" "a@b.com" "access" "k1"
           (100 * gotime.Millisecond) memory.noon memory.noon);
    first [ discriminate | reflexivity | by vm_compute ].
Defined.

(** ** The Authorization header *)

Section Header.
Import strings strings_split utils_header.

Lemma append_cons (a : ascii) (s t : string) :
  String a s +:+ t = String a (s +:+ t).
Proof. reflexivity. Qed.

Lemma append_empty_l (s : string) : EmptyString +:+ s = s.
Proof. reflexivity. Qed.

Lemma append_empty_r (s : string) : s +:+ EmptyString = s.
Proof.
  induction s as [|a s IH]; [done|]. by rewrite append_cons, IH.
Qed.

Lemma append_byte_assoc (cur : string) (c : ascii) (s : string) :
  (cur +:+ String c EmptyString) +:+ s = cur +:+ String c s.
Proof.
  induction cur as [|a cur IH]; [done|]. by rewrite !append_cons, IH.
Qed.

Lemma isEmpty_append_byte (cur : string) (c : ascii) :
  isEmpty (cur +:+ String c EmptyString) = false.
Proof. by destruct cur. Qed.

(** A byte that begins no white-space code point goes to the field. *)
Lemma fieldsFrom_byte (cur : string) (a : ascii) (s : string) :
  spaceLen (String a s) = 0%nat ->
  fieldsFrom cur (String a s) = fieldsFrom (cur +:+ String a EmptyString) s.
Proof.
  cbn [spaceLen fieldsFrom].
  destruct (isSpace a); [discriminate|].
  destruct s as [|b s]; [done|].
  destruct (space2 a b); [discriminate|].
  destruct s as [|c s]; [done|].
  by destruct (space3 a b c).
Qed.

(** A white-space code point ends the field; the reading goes on behind
    it. *)
Lemma fieldsFrom_space (cur : string) (a : ascii) (s : string) :
  spaceLen (String a s) <> 0%nat ->
  exists rest,
    (String.length rest <= String.length s)%nat
    /\ fieldsFrom cur (String a s) = flush cur (fieldsFrom EmptyString rest).
Proof.
  cbn [spaceLen fieldsFrom].
  destruct (isSpace a); [by eexists|].
  destruct s as [|b s]; [done|].
  destruct (space2 a b); [eexists; split; [|done]; cbn; lia|].
  destruct s as [|c s]; [done|].
  destruct (space3 a b c); [eexists; split; [|done]; cbn; lia|done].
Qed.

(** What begins a white-space code point still does with more text
    behind it. *)
Lemma spaceLen_append (s t : string) :
  spaceLen s <> 0%nat -> spaceLen (s +:+ t) = spaceLen s.
Proof.
  destruct s as [|a [|b [|c s]]]; rewrite ?append_cons; cbn [spaceLen];
    [done|..].
  - by destruct (isSpace a).
  - destruct (isSpace a); [done|]. by destruct (space2 a b).
  - destruct (isSpace a); [done|]. by destruct (space2 a b).
Qed.

Lemma spaceFree_hasSpace (cur s : string) :
  spaceFree cur s = true -> hasSpace cur = false.
Proof.
  induction cur as [|a cur IH]; [done|]. cbn [spaceFree hasSpace].
  intros [Ha Hcur]%andb_true_iff. rewrite (IH Hcur), orb_false_r.
  apply Nat.eqb_eq in Ha.
  destruct (Nat.eqb_spec (spaceLen (String a cur)) 0%nat) as [|Hne];
    [done|].
  rewrite (spaceLen_append _ s Hne) in Ha. done.
Qed.

Lemma spaceFree_snoc (cur : string) (a : ascii) (s : string) :
  spaceFree cur (String a s) = true ->
  spaceLen (String a s) = 0%nat ->
  spaceFree (cur +:+ String a EmptyString) s = true.
Proof.
  induction cur as [|b cur IH]; intros Hcur Ha.
  - rewrite append_empty_l. cbn [spaceFree].
    by rewrite append_cons, append_empty_l, Ha.
  - cbn [spaceFree] in Hcur. apply andb_true_iff in Hcur as [Hb Hcur].
    rewrite append_cons. cbn [spaceFree].
    rewrite <- append_cons, append_byte_assoc, Hb. cbn [andb].
    by apply IH.
Qed.

(** Every field is non-empty and free of white space. *)
Lemma fieldsFrom_fields (n : nat) :
  forall s cur, (String.length s <= n)%nat -> spaceFree cur s = true ->
    Forall (fun f => isEmpty f = false /\ hasSpace f = false)
           (fieldsFrom cur s).
Proof.
  induction n as [|n IH]; intros s cur Hn Hcur.
  - destruct s; [|cbn in Hn; lia]. cbn [fieldsFrom]. unfold flush.
    destruct (isEmpty cur) eqn:He; [constructor|].
    repeat constructor; [done|]. by apply (spaceFree_hasSpace cur EmptyString).
  - destruct s as [|a s].
    { cbn [fieldsFrom]. unfold flush.
      destruct (isEmpty cur) eqn:He; [constructor|].
      repeat constructor; [done|].
      by apply (spaceFree_hasSpace cur EmptyString). }
    cbn [String.length] in Hn.
    destruct (Nat.eq_dec (spaceLen (String a s)) 0%nat) as [Hbyte|Hspace].
    + rewrite fieldsFrom_byte by done.
      apply IH; [lia|]. by apply spaceFree_snoc.
    + destruct (fieldsFrom_space cur a s Hspace) as (rest & Hlen & ->).
      unfold flush.
      assert (Forall (fun f => isEmpty f = false /\ hasSpace f = false)
                     (fieldsFrom EmptyString rest)) as Hrest
        by (apply IH; [lia|done]).
      destruct (isEmpty cur) eqn:He; [done|].
      constructor; [|done]. split; [done|].
      by apply (spaceFree_hasSpace cur (String a s)).
Qed.

(** A text free of white space is one field, added to the one being
    read. *)
Lemma fieldsFrom_one (t : string) :
  forall cur, hasSpace t = false ->
    fieldsFrom cur t = flush (cur +:+ t) [].
Proof.
  induction t as [|c t IH]; intros cur Ht.
  - by rewrite append_empty_r.
  - cbn [hasSpace] in Ht. apply orb_false_iff in Ht as [Hc Ht].
    apply negb_false_iff, Nat.eqb_eq in Hc.
    rewrite fieldsFrom_byte by done.
    rewrite IH by done. by rewrite append_byte_assoc.
Qed.

Lemma Fields_Bearer (token : string) :
  Fields ("Bearer " +:+ token) = "Bearer" :: Fields token.
Proof.
  unfold Fields. rewrite !append_cons.
  do 4 (rewrite fieldsFrom_byte by reflexivity).
  destruct token as [|c token].
  - reflexivity.
  - do 2 (rewrite fieldsFrom_byte by reflexivity). reflexivity.
Qed.

(** X7: [ExtractTokenFromHeader] never answers that the token is empty,
    since [strings.Fields] yields no empty field.  When it succeeds the
    header consists of the two fields Bearer and the token, and the token
    is non-empty and holds no white-space code point.  Conversely, for
    every non-empty token without a white-space code point the header
    made of Bearer, one space and the token yields that token. *)
Theorem X7_bearer_token (authHeader token : string) :
  ExtractTokenFromHeader authHeader <> Fail "token is empty"
  /\ (ExtractTokenFromHeader authHeader = Ok token ->
      Fields authHeader = ["Bearer"; token]
      /\ token <> EmptyString /\ hasSpace token = false)
  /\ (token <> EmptyString -> hasSpace token = false ->
      ExtractTokenFromHeader ("Bearer " +:+ token) = Ok token).
Proof.
  split; [|split].
  - unfold ExtractTokenFromHeader.
    destruct (isEmpty authHeader); [discriminate|].
    pose proof (fieldsFrom_fields _ authHeader EmptyString (le_n _) eq_refl)
      as Hf.
    fold (Fields authHeader) in Hf.
    destruct (Fields authHeader) as [|scheme [|tok [|]]]; try discriminate.
    apply Forall_cons in Hf as [_ [[Htok _] _]%Forall_cons].
    rewrite Htok. by repeat case_match.
  - unfold ExtractTokenFromHeader.
    destruct (isEmpty authHeader); [discriminate|].
    pose proof (fieldsFrom_fields _ authHeader EmptyString (le_n _) eq_refl)
      as Hf.
    fold (Fields authHeader) in Hf.
    destruct (Fields authHeader) as [|scheme [|tok [|]]]; try discriminate.
    apply Forall_cons in Hf as [_ [[Htok Hsp] _]%Forall_cons].
    destruct (String.eqb_spec scheme "Bearer") as [->|]; [|discriminate].
    cbn [negb]. rewrite Htok. intros [= ->].
    repeat split; [|done]. by destruct token.
  - intros Hne Hsp. unfold ExtractTokenFromHeader.
    rewrite Fields_Bearer. unfold Fields.
    rewrite fieldsFrom_one by done. rewrite append_empty_l.
    unfold flush. rewrite (isEmpty_false token Hne).
    cbn [String.eqb Ascii.eqb Bool.eqb negb andb].
    by rewrite (isEmpty_false token Hne).
Qed.

(** An instance of X7. *)
Lemma X7_bearer_token_witness :
  ExtractTokenFromHeader "Bearer abc.def.ghi" = Ok "abc.def.ghi"
  /\ Fields "  Bearer   abc.def.ghi " = ["Bearer"; "abc.def.ghi"]
  /\ ExtractTokenFromHeader ("Bearer" +:+ NBSP +:+ "abc") = Ok "abc"
  /\ ExtractTokenFromHeader ("Bearer abc" +:+ NBSP +:+ "def")
     = Fail "invalid authorization header format".
Proof.
  destruct (X7_bearer_token "  Bearer   abc.def.ghi " "abc.def.ghi")
    as (_ & Hshape & Hmake).
  split; [|split].
  - apply Hmake; [discriminate|reflexivity].
  - by apply Hshape.
  - by vm_compute.
Defined.

End Header.

(** ** Admission control: clients, sweeps and the bound *)

Section Limiter.
Import gotime middleware.

(** The answer of [allow] and the record it leaves, from the record it
    works on. *)
Lemma allow_unfold (rl : RateLimiter) (now : Time) (ip : string) :
  let cl := refill rl now (getOrCreate rl now ip) in
  let left := if tokens cl >? 0 then tokens cl - 1 else tokens cl in
  (allow rl now ip).2
  = (if tokens cl >? 0 then (true, left, Add (lastReset cl) (window rl))
     else (false, 0, Add (lastReset cl) (window rl)))
  /\ clients (allow rl now ip).1 !! ip
     = Some {| tokens := left; lastReset := lastReset cl |}
  /\ (forall other, other <> ip ->
        clients (allow rl now ip).1 !! other = clients rl !! other).
Proof.
  intros cl left. subst left. unfold allow. fold cl.
  destruct (tokens cl >? 0); cbn [fst snd clients with_clients].
  - split; [done|]. split; [by rewrite lookup_insert_eq|].
    intros other Hne. by rewrite lookup_insert_ne.
  - split; [done|]. split; [rewrite lookup_insert_eq; by destruct cl|].
    intros other Hne. by rewrite lookup_insert_ne.
Qed.

(** [allow] reads the limit, the window and the record of its client,
    nothing else. *)
Lemma allow_local (rl rl' : RateLimiter) (now : Time) (ip : string) :
  limit rl' = limit rl -> window rl' = window rl ->
  clients rl' !! ip = clients rl !! ip ->
  (allow rl' now ip).2 = (allow rl now ip).2
  /\ clients (allow rl' now ip).1 !! ip = clients (allow rl now ip).1 !! ip.
Proof.
  intros Hl Hw Hc.
  destruct (allow_unfold rl now ip) as (-> & -> & _).
  destruct (allow_unfold rl' now ip) as (-> & -> & _).
  unfold getOrCreate, refill, expired. by rewrite Hl, Hw, Hc.
Qed.

(** X9: the budgets of two clients are independent.  After any sequence
    of requests of other clients, the record of client [ip] is what it
    was, and the next request of [ip] gets the answer and leaves the
    record it would have got and left without them. *)
Theorem X9_clients_are_independent (rl : RateLimiter) (ip : string)
    (others : list (string * Time)) (now : Time) :
  Forall (fun r => r.1 <> ip) others ->
  let rl' := run rl (map (fun r => Request r.1 r.2) others) in
  clients rl' !! ip = clients rl !! ip
  /\ (allow rl' now ip).2 = (allow rl now ip).2
  /\ clients (allow rl' now ip).1 !! ip = clients (allow rl now ip).1 !! ip.
Proof.
  intros Hothers rl'.
  assert (limit rl' = limit rl /\ window rl' = window rl
          /\ clients rl' !! ip = clients rl !! ip) as (Hl & Hw & Hc).
  { subst rl'. revert rl. induction others as [|[k t] rest IH]; intros rl.
    - done.
    - apply Forall_cons in Hothers as [Hk Hrest]. cbn in Hk.
      cbn [map fst snd]. rewrite run_cons.
      destruct (IH Hrest (step rl (Request k t))) as (-> & -> & ->).
      cbn [step fst snd].
      destruct (allow_config rl t k) as [-> ->].
      destruct (allow_unfold rl t k) as (_ & _ & Hframe).
      by rewrite Hframe. }
  split; [done|]. by apply allow_local.
Qed.

(** An instance of X9: a second client uses up its budget in between. *)
Lemma X9_clients_are_independent_witness :
  let rl := NewRateLimiter 1 (100 * Millisecond) in
  let rl' :=
    run rl [Request "10.0.0.2" memory.noon;
            Request "10.0.0.2" (memory.noon + Millisecond)] in
  (allow rl' (memory.noon + 2 * Millisecond) "10.0.0.1").2
  = (true, 0, Add (memory.noon + 2 * Millisecond) (100 * Millisecond)).
Proof.
  intros rl rl'.
  destruct (X9_clients_are_independent rl "10.0.0.1"
              [("10.0.0.2", memory.noon);
               ("10.0.0.2", memory.noon + Millisecond)]
              (memory.noon + 2 * Millisecond)) as (_ & Hanswer & _).
  { repeat constructor; discriminate. }
  etransitivity; [exact Hanswer|by vm_compute].
Defined.

Lemma int64_in_range (x : Z) :
  - 2 ^ 63 <= x <= maxDuration -> int64 x = x.
Proof.
  unfold int64, maxDuration. intros Hx.
  rewrite Z.mod_small by lia. lia.
Qed.

(** X10: a pass of [cleanup] keeps the limit and the window, keeps every
    record unchanged that has been reset within twice the window, and
    removes the others.  With a window that is not negative and whose
    double is a [Duration], no request made at or after the pass can tell
    that it ran: the request gets the same answer and leaves the same
    record of its client. *)
Theorem X10_cleanup_is_invisible (rl : RateLimiter) (pass now : Time)
    (ip : string) :
  0 <= window rl ->
  window rl * 2 <= maxDuration ->
  pass <= now ->
  limit (cleanup rl pass) = limit rl
  /\ window (cleanup rl pass) = window rl
  /\ (forall k cl,
        clients (cleanup rl pass) !! k = Some cl
        <-> clients rl !! k = Some cl
            /\ Sub pass (lastReset cl) <= window rl * 2)
  /\ (allow (cleanup rl pass) now ip).2 = (allow rl now ip).2
  /\ clients (allow (cleanup rl pass) now ip).1 !! ip
     = clients (allow rl now ip).1 !! ip.
Proof.
  intros Hw Hdouble Hlater.
  assert (forall k cl,
            clients (cleanup rl pass) !! k = Some cl
            <-> clients rl !! k = Some cl
                /\ Sub pass (lastReset cl) <= window rl * 2) as Hkept.
  { intros k cl. cbn [cleanup clients with_clients].
    rewrite map_lookup_filter_Some. cbn.
    rewrite int64_in_range by (unfold maxDuration in *; lia).
    unfold Sub. intuition lia. }
  split; [done|]. split; [done|]. split; [done|].
  destruct (clients rl !! ip) as [cl|] eqn:Hcl.
  - destruct (Z.le_gt_cases (Sub pass (lastReset cl)) (window rl * 2))
      as [Hkeep|Hdrop].
    + apply allow_local; [done|done|]. rewrite Hcl. by apply Hkept.
    + assert (clients (cleanup rl pass) !! ip = None) as Hgone.
      { destruct (clients (cleanup rl pass) !! ip) as [cl'|] eqn:Hcl';
          [|done].
        apply Hkept in Hcl' as [Hcl' Hle]. rewrite Hcl in Hcl'.
        injection Hcl' as <-. lia. }
      destruct (allow_unfold rl now ip) as (-> & -> & _).
      destruct (allow_unfold (cleanup rl pass) now ip) as (-> & -> & _).
      unfold getOrCreate. rewrite Hcl, Hgone.
      unfold refill, expired, Sub in *. cbn [tokens lastReset limit window
        cleanup with_clients].
      destruct (Z.gtb_spec (now - now) (window rl)); [lia|].
      destruct (Z.gtb_spec (now - lastReset cl) (window rl)); [done|lia].
  - apply allow_local; [done|done|]. rewrite Hcl.
    destruct (clients (cleanup rl pass) !! ip) as [cl'|] eqn:Hcl'; [|done].
    apply Hkept in Hcl' as [Hcl' _]. congruence.
Qed.

(** An instance of X10: a pass long after the last request of a client
    whose budget was used up. *)
Lemma X10_cleanup_is_invisible_witness :
  let rl :=
    run (NewRateLimiter 1 (100 * Millisecond))
      [Request "10.0.0.1" memory.noon] in
  clients (cleanup rl (memory.noon + Second)) !! "10.0.0.1" = None
  /\ (allow (cleanup rl (memory.noon + Second)) (memory.noon + 2 * Second)
        "10.0.0.1").2
     = (allow rl (memory.noon + 2 * Second) "10.0.0.1").2.
Proof.
  intros rl. split; [by vm_compute|].
  apply (X10_cleanup_is_invisible rl (memory.noon + Second)
           (memory.noon + 2 * Second) "10.0.0.1"); by vm_compute.
Defined.

End Limiter.

Section RateBound.
Import gotime middleware.

Lemma allowAll_cons (rl : RateLimiter) (ip : string) (now : Time)
    (rest : list Time) :
  (allowAll rl ip (now :: rest)).2
  = (allow rl now ip).2 :: (allowAll (allow rl now ip).1 ip rest).2.
Proof.
  cbn [allowAll]. destruct (allow rl now ip) as [rl1 r]. cbn [fst snd].
  by destruct (allowAll rl1 ip rest).
Qed.

(** What the window opened at [start] can still admit, seen from a record:
    nothing when the record's window is a later one, the budget left when
    it is this window, a full budget when this window is still to come. *)
Lemma admittedIn_bounded (ip : string) (times : list Time) :
  forall (rl : RateLimiter) (cl : client) (start : Time),
    0 <= window rl -> 0 <= limit rl ->
    clients rl !! ip = Some cl ->
    0 <= tokens cl <= limit rl ->
    admittedIn (window rl) start (allowAll rl ip times).2
    <= if start <? lastReset cl then 0
       else if start =? lastReset cl then tokens cl
       else limit rl.
Proof.
  induction times as [|now rest IH]; intros rl cl start Hw Hl Hcl Hrange.
  - cbn [allowAll snd admittedIn]. repeat case_match; lia.
  - rewrite allowAll_cons.
    destruct (allow_unfold rl now ip) as (Hans & Hrec & _).
    destruct (allow_config rl now ip) as [Hlimit Hwindow].
    rewrite Hans. clear Hans.
    unfold getOrCreate in *. rewrite Hcl in *.
    set (cl1 := refill rl now cl) in *.
    assert (0 <= tokens cl1 <= limit rl
            /\ (cl1 = cl
                \/ lastReset cl < lastReset cl1 /\ tokens cl1 = limit rl))
      as (Hrange1 & Hcase).
    { subst cl1. unfold refill, expired, Sub.
      destruct (Z.gtb_spec (now - lastReset cl) (window rl));
        cbn [tokens lastReset]; [|by auto]. split; [lia|]. right. lia. }
    specialize (IH (allow rl now ip).1 _ start
                  ltac:(lia) ltac:(lia) Hrec).
    rewrite Hlimit, Hwindow in IH. cbn [tokens lastReset] in IH.
    destruct (Z.gtb_spec (tokens cl1) 0) as [Hpos|Hzero].
    + specialize (IH ltac:(lia)). cbn [admittedIn andb]. unfold Add in *.
      destruct Hcase as [->|[Hlater Hfull]];
        repeat case_match; zbool; try lia;
        repeat match goal with
               | H : (_ =? _) = true |- _ => apply Z.eqb_eq in H
               | H : (_ =? _) = false |- _ => apply Z.eqb_neq in H
               end; lia.
    + specialize (IH ltac:(lia)). cbn [admittedIn andb]. unfold Add in *.
      destruct Hcase as [->|[Hlater Hfull]];
        repeat case_match; zbool; try lia;
        repeat match goal with
               | H : (_ =? _) = true |- _ => apply Z.eqb_eq in H
               | H : (_ =? _) = false |- _ => apply Z.eqb_neq in H
               end; lia.
Qed.

(** X11: the limiter admits at most [limit] requests of a client in one
    window.  For a window that is not negative, a limit that is not
    negative and a table whose budgets are in range (the table of a new
    limiter, and every table reached from it), whatever the times of the
    requests of a client are, the answers that admit a request and
    announce the same reset time are at most [limit] in number. *)
Theorem X11_at_most_limit_per_window (rl : RateLimiter) (ip : string)
    (times : list Time) (start : Time) :
  0 <= window rl -> 0 <= limit rl ->
  budgetsInRange rl ->
  admittedIn (window rl) start (allowAll rl ip times).2 <= limit rl.
Proof.
  intros Hw Hl Hinv.
  destruct (clients rl !! ip) as [cl|] eqn:Hcl.
  - pose proof (admittedIn_bounded ip times rl cl start Hw Hl Hcl
                  (Hinv ip cl Hcl)) as Hb.
    pose proof (Hinv ip cl Hcl). repeat case_match; lia.
  - destruct times as [|now rest]; [cbn [allowAll snd admittedIn]; lia|].
    rewrite allowAll_cons.
    destruct (allow_unfold rl now ip) as (Hans & Hrec & _).
    destruct (allow_config rl now ip) as [Hlimit Hwindow].
    rewrite Hans. clear Hans.
    unfold getOrCreate in *. rewrite Hcl in *.
    assert (refill rl now {| tokens := limit rl; lastReset := now |}
            = {| tokens := limit rl; lastReset := now |}) as Hfill.
    { unfold refill. by destruct (expired rl now _). }
    rewrite Hfill in *. cbn [tokens lastReset] in *.
    pose proof (admittedIn_bounded ip rest (allow rl now ip).1 _ start
                  ltac:(lia) ltac:(lia) Hrec) as Hb.
    rewrite Hlimit, Hwindow in Hb. cbn [tokens lastReset] in Hb.
    destruct (Z.gtb_spec (limit rl) 0) as [Hpos|Hzero].
    + specialize (Hb ltac:(lia)). cbn [admittedIn andb]. unfold Add in *.
      repeat case_match; zbool; try lia;
        repeat match goal with
               | H : (_ =? _) = true |- _ => apply Z.eqb_eq in H
               | H : (_ =? _) = false |- _ => apply Z.eqb_neq in H
               end; lia.
    + specialize (Hb ltac:(lia)). cbn [admittedIn andb]. unfold Add in *.
      repeat case_match; zbool; try lia;
        repeat match goal with
               | H : (_ =? _) = true |- _ => apply Z.eqb_eq in H
               | H : (_ =? _) = false |- _ => apply Z.eqb_neq in H
               end; lia.
Qed.

(** An instance of X11: five requests within 4 ms against a limit of 2. *)
Lemma X11_at_most_limit_per_window_witness :
  let rl := NewRateLimiter 2 (100 * Millisecond) in
  let times :=
    [memory.noon; memory.noon + Millisecond; memory.noon + 2 * Millisecond;
     memory.noon + 3 * Millisecond; memory.noon + 4 * Millisecond] in
  admittedIn (window rl) memory.noon (allowAll rl "10.0.0.1" times).2 <= 2
  /\ admittedIn (window rl) memory.noon (allowAll rl "10.0.0.1" times).2 = 2.
Proof.
  intros rl times. split; [|by vm_compute].
  apply (X11_at_most_limit_per_window rl "10.0.0.1" times memory.noon).
  - by vm_compute.
  - by vm_compute.
  - intros k cl Hcl. cbn in Hcl. by rewrite lookup_empty in Hcl.
Defined.

End RateBound.

(** ** The credential service: what its successes mean *)

Section ServiceFlows.
Import strings models services unicode.
Context `{Ext : Externals} `{Txt : unicode.Strings}
  {R : Type} `{Repo : !UserRepository R}.

(** The token [generateToken] makes for a record is the token of the
    record. *)
Lemma generateToken_tokenOf (s : AuthService) (class : string)
    (ttl : gotime.Duration) (now : gotime.Time) (u : User)
    (tok : utils_jwt.token) :
  json.roundTrip class = class ->
  utils_jwt.generateToken (uuid_String (ID u)) (Email u) class ttl
    (jwtSecret s) now = Ok tok ->
  tok = tokenOf s class ttl now u.
Proof.
  intros Hclass Hgen.
  pose proof (generateToken_inv _ _ _ _ _ _ _ Hgen)
    as (Hid & Hemail & Hsecret & Httl & _).
  rewrite generateToken_ok in Hgen by done. injection Hgen as <-.
  unfold tokenOf, jwt.SignedString.
  cbn [jwt.Decoded utils_jwt.customClaims_Claims utils_jwt.c_UserID
       utils_jwt.c_Email utils_jwt.c_TokenType utils_jwt.c_Registered].
  by rewrite uuid_String_roundTrip, Hclass.
Qed.

(** A success of [RefreshToken] is for a token that validates with the
    class refresh. *)
Lemma RefreshToken_inv (s : AuthService) (repo : R) (now : gotime.Time)
    (tok : utils_jwt.token) (resp : RefreshTokenResponse) :
  RefreshToken s repo now tok = Ok resp ->
  exists claims,
    utils_jwt.ValidateToken tok (jwtSecret s) now = Ok claims
    /\ utils_jwt.TokenType claims = "refresh".
Proof.
  unfold RefreshToken. destruct (jwt.isEmpty tok); [discriminate|].
  destruct (utils_jwt.ValidateToken tok (jwtSecret s) now) as [claims|];
    [|discriminate].
  destruct (String.eqb_spec (utils_jwt.TokenType claims) "refresh");
    [|discriminate].
  intros _. by exists claims.
Qed.

(** A success of [ValidateAccessToken] is for a token that validates with
    the class access. *)
Lemma ValidateAccessToken_inv (s : AuthService) (repo : R)
    (now : gotime.Time) (tok : utils_jwt.token) (u : User) :
  ValidateAccessToken s repo now tok = Ok u ->
  exists claims,
    utils_jwt.ValidateToken tok (jwtSecret s) now = Ok claims
    /\ utils_jwt.TokenType claims = "access".
Proof.
  unfold ValidateAccessToken. destruct (jwt.isEmpty tok); [discriminate|].
  destruct (utils_jwt.ValidateToken tok (jwtSecret s) now) as [claims|];
    [|discriminate].
  destruct (String.eqb_spec (utils_jwt.TokenType claims) "access");
    [|discriminate].
  intros _. by exists claims.
Qed.

(** X8: the two classes of token exclude each other.  A token that
    validates with a class other than access is refused by
    [ValidateAccessToken] as of the wrong type; and a token
    [RefreshToken] has accepted, at any time and against any store, is
    accepted by [ValidateAccessToken] at no time and against no store. *)
Theorem X8_token_classes_exclusive (s : AuthService) (repo : R)
    (now : gotime.Time) (tok : utils_jwt.token) :
  (forall claims,
      utils_jwt.ValidateToken tok (jwtSecret s) now = Ok claims ->
      utils_jwt.TokenType claims <> "access" ->
      ValidateAccessToken s repo now tok = Fail InvalidTokenType)
  /\ (forall (repo' : R) (now' : gotime.Time) resp,
        RefreshToken s repo' now' tok = Ok resp ->
        forall u, ValidateAccessToken s repo now tok <> Ok u).
Proof.
  split.
  - intros claims Hvalid Hclass. unfold ValidateAccessToken.
    assert (jwt.isEmpty tok = false) as ->.
    { unfold utils_jwt.ValidateToken in Hvalid.
      by destruct (jwt.isEmpty tok). }
    rewrite Hvalid.
    by destruct (String.eqb_spec (utils_jwt.TokenType claims) "access").
  - intros repo' now' resp Hrefresh u Haccess.
    apply RefreshToken_inv in Hrefresh as (c1 & Hv1 & Hc1).
    apply ValidateAccessToken_inv in Haccess as (c2 & Hv2 & Hc2).
    apply ValidateToken_inv in Hv1 as (a1 & p1 & Ht1 & _ & _ & -> & _).
    apply ValidateToken_inv in Hv2 as (a2 & p2 & Ht2 & _ & _ & -> & _).
    rewrite Ht1 in Ht2. injection Ht2 as _ <- _.
    cbn in Hc1, Hc2. congruence.
Qed.

(** What a success of [Login] says. *)
Lemma Login_inv (s : AuthService) (repo : R) (now : gotime.Time)
    (email password : string) (resp : LoginResponse) :
  Login s repo now email password = Ok resp ->
  email <> EmptyString /\ password <> EmptyString
  /\ jwtSecret s <> EmptyString
  /\ 0 < accessTokenDuration s /\ 0 < refreshTokenDuration s
  /\ exists u,
       GetByEmail repo (ToLower (TrimSpace email)) = Ok u
       /\ IsActive u = true
       /\ ComparePasswords (PasswordHash u) password = true
       /\ User_ resp = set_PasswordHash EmptyString u
       /\ utils_jwt.GenerateAccessToken (uuid_String (ID u)) (Email u)
            (accessTokenDuration s) (jwtSecret s) now
          = Ok (AccessToken resp)
       /\ utils_jwt.GenerateRefreshToken (uuid_String (ID u)) (Email u)
            (refreshTokenDuration s) (jwtSecret s) now
          = Ok (models.RefreshToken resp)
       /\ classOf (AccessToken resp) = Some "access"
       /\ classOf (models.RefreshToken resp) = Some "refresh"
       /\ TokenType resp = "Bearer"
       /\ ExpiresIn resp = gotime.Seconds_int (accessTokenDuration s)
       /\ AccessToken resp = accessTokenOf s now u
       /\ models.RefreshToken resp = refreshTokenOf s now u.
Proof.
  unfold Login, generateAccessToken, generateRefreshToken.
  destruct email as [|a email]; [discriminate|].
  destruct password as [|b password]; [discriminate|]. cbn [isEmpty].
  destruct (GetByEmail repo _) as [u|] eqn:Hu; [|discriminate].
  destruct (IsActive u) eqn:Hactive; [|discriminate]. cbn [negb].
  destruct (ComparePasswords _ _) eqn:Hverify; [|discriminate].
  cbn [negb].
  destruct (utils_jwt.GenerateAccessToken _ _ _ _ _) as [access|]
    eqn:Haccess; [|discriminate].
  destruct (utils_jwt.GenerateRefreshToken _ _ _ _ _) as [refresh|]
    eqn:Hrefresh; [|discriminate].
  intros [= <-]. cbn [AccessToken models.RefreshToken User_ TokenType
    ExpiresIn].
  pose proof (generateToken_inv _ _ _ _ _ _ _ Haccess)
    as (_ & _ & Hsecret & Hattl & Haclass).
  pose proof (generateToken_inv _ _ _ _ _ _ _ Hrefresh)
    as (_ & _ & _ & Hrttl & Hrclass).
  pose proof (generateToken_tokenOf s "access" _ now u access eq_refl
                Haccess) as Hatok.
  pose proof (generateToken_tokenOf s "refresh" _ now u refresh eq_refl
                Hrefresh) as Hrtok.
  do 5 (split; [done|]). exists u.
  do 6 (split; [done|]). do 4 (split; [done|]). by split.
Qed.

(** What [Login] returns for a record that is active and whose hash
    verifies the password, under a service that can issue tokens. *)
Lemma Login_ok (s : AuthService) (repo : R) (now : gotime.Time)
    (email password : string) (u : User) :
  email <> EmptyString -> password <> EmptyString ->
  jwtSecret s <> EmptyString ->
  0 < accessTokenDuration s -> 0 < refreshTokenDuration s ->
  GetByEmail repo (ToLower (TrimSpace email)) = Ok u ->
  IsActive u = true ->
  ComparePasswords (PasswordHash u) password = true ->
  uuid_String (ID u) <> EmptyString -> Email u <> EmptyString ->
  exists resp,
    Login s repo now email password = Ok resp
    /\ User_ resp = set_PasswordHash EmptyString u.
Proof.
  intros He Hp Hsecret Hattl Hrttl Hu Hactive Hverify Hid Hemail.
  unfold Login, generateAccessToken, generateRefreshToken,
    utils_jwt.GenerateAccessToken, utils_jwt.GenerateRefreshToken.
  rewrite !isEmpty_false, Hu, Hactive, Hverify by done. cbn [negb].
  rewrite !generateToken_ok by done. by eexists.
Qed.


(** A token issued for a subject validates, from its issuance until its
    expiry, to the claims it was issued for. *)
Lemma issued_token_validates (userID email class secret : string)
    (ttl : gotime.Duration) (now t : gotime.Time) (tok : utils_jwt.token) :
  utils_jwt.generateToken userID email class ttl secret now = Ok tok ->
  now <= t -> t < jwt.NewNumericDate (gotime.Add now ttl) ->
  jwt.isEmpty tok = false
  /\ utils_jwt.ValidateToken tok secret t
     = Ok {| utils_jwt.UserID := json.roundTrip userID;
             utils_jwt.Email := json.roundTrip email;
             utils_jwt.TokenType := json.roundTrip class |}.
Proof.
  intros Hgen Hfrom Hbefore.
  pose proof (generateToken_inv _ _ _ _ _ _ _ Hgen)
    as (Hu & He & Hs & Httl & _).
  rewrite generateToken_ok in Hgen by done. injection Hgen as <-.
  split; [done|].
  rewrite ValidateToken_signed by done.
  rewrite bool_decide_eq_true_2 by done.
  unfold jwt.Validate, jwt.verifyExpiresAt, jwt.verifyNotBefore.
  cbn [jwt.GetExpirationTime jwt.GetNotBefore utils_jwt.customClaims_Claims
       utils_jwt.c_Registered jwt.ExpiresAt jwt.NotBefore
       utils_jwt.c_UserID utils_jwt.c_Email utils_jwt.c_TokenType].
  unfold jwt.NewNumericDate, jwt.TimePrecision, gotime.Before in *.
  pose proof (Truncate_Second_le now).
  destruct (Z.ltb_spec t (gotime.Truncate (gotime.Add now ttl) gotime.Second));
    [|lia].
  destruct (Z.ltb_spec t (gotime.Truncate now gotime.Second)); [lia|done].
Qed.

(** X14: the tokens of a login work while they last.  Let [Login]
    succeed at [now], let the identifier of the record survive the trip
    through its text form, and let the store return an active record for
    it at a later time [t] before the tokens expire.  Then
    [ValidateAccessToken] on the access token returns that record without
    its hash, and [RefreshToken] on the refresh token returns an access
    token issued at [t] for that record. *)
Theorem X14_login_tokens_work (s : AuthService) (repo repo' : R)
    (now t : gotime.Time) (email password : string)
    (resp : LoginResponse) (u' : User) :
  Login s repo now email password = Ok resp ->
  uuid_Parse (uuid_String (ID (User_ resp))) = Some (ID (User_ resp)) ->
  GetByID repo' (ID (User_ resp)) = Ok u' ->
  IsActive u' = true ->
  uuid_String (ID u') <> EmptyString -> Email u' <> EmptyString ->
  now <= t ->
  t < jwt.NewNumericDate (gotime.Add now (accessTokenDuration s)) ->
  t < jwt.NewNumericDate (gotime.Add now (refreshTokenDuration s)) ->
  ValidateAccessToken s repo' t (AccessToken resp)
    = Ok (set_PasswordHash EmptyString u')
  /\ exists r,
       RefreshToken s repo' t (models.RefreshToken resp) = Ok r
       /\ utils_jwt.GenerateAccessToken (uuid_String (ID u')) (Email u')
            (accessTokenDuration s) (jwtSecret s) t
          = Ok (rt_AccessToken r).
Proof.
  intros Hlogin Hid Hu' Hactive Hidtext Hemail Hfrom Haccess Hrefresh.
  apply Login_inv in Hlogin
    as (_ & _ & Hsecret & Hattl & _ & u & _ & _ & _ & Huser & Hatok & Hrtok
        & _).
  rewrite Huser in Hid, Hu'. cbn [ID set_PasswordHash] in Hid, Hu'.
  destruct (issued_token_validates _ _ _ _ _ _ t _ Hatok Hfrom Haccess)
    as [Hane Havalid].
  destruct (issued_token_validates _ _ _ _ _ _ t _ Hrtok Hfrom Hrefresh)
    as [Hrne Hrvalid].
  rewrite uuid_String_roundTrip in Havalid, Hrvalid.
  change (json.roundTrip "access") with "access" in Havalid.
  change (json.roundTrip "refresh") with "refresh" in Hrvalid.
  split.
  - unfold ValidateAccessToken. rewrite Hane, Havalid.
    cbn [utils_jwt.TokenType utils_jwt.UserID String.eqb Ascii.eqb
         Bool.eqb negb].
    by rewrite Hid, Hu', Hactive.
  - unfold RefreshToken, generateAccessToken. rewrite Hrne, Hrvalid.
    cbn [utils_jwt.TokenType utils_jwt.UserID String.eqb Ascii.eqb
         Bool.eqb negb].
    rewrite Hid, Hu', Hactive. cbn [negb].
    unfold utils_jwt.GenerateAccessToken.
    rewrite generateToken_ok by done. by eexists.
Qed.

(** What a success of [Register] went through. *)
Lemma Register_inv (s : AuthService) (repo repo' : R) (now : gotime.Time)
    (id : UUID) (salt : string) (req : RegisterRequest) (u : User) :
  Register s repo now id salt req = (repo', Ok u) ->
  r_Password req <> EmptyString
  /\ TrimSpace (r_Email req) <> EmptyString
  /\ validatePassword (r_Password req) = None
  /\ exists hash stored,
       bcrypt_GenerateFromPassword salt (r_Password req) = Ok hash
       /\ Create repo (registeredUser now id hash req)
          = (repo', stored, None)
       /\ u = set_PasswordHash EmptyString stored.
Proof.
  unfold Register.
  destruct (validateRegistrationRequest now req) eqn:Hreq; [discriminate|].
  destruct (validateEmail (r_Email req)) eqn:Hemail; [discriminate|].
  destruct (validatePassword (r_Password req)) eqn:Hpw; [discriminate|].
  destruct (GetByEmail repo (r_Email req)); [discriminate|].
  destruct (HashPassword salt (r_Password req)) as [hash|] eqn:Hhash;
    [|discriminate].
  fold (registeredUser now id hash req).
  destruct (Create repo (registeredUser now id hash req))
    as [[repo1 stored] [err|]] eqn:Hcreate; [discriminate|].
  intros [= <- <-].
  assert (r_Password req <> EmptyString) as Hne.
  { unfold validateRegistrationRequest in Hreq.
    destruct (r_Email req); [discriminate|].
    by destruct (r_Password req). }
  repeat split; [done| |].
  - unfold validateEmail in Hemail.
    by destruct (TrimSpace (r_Email req)).
  - exists hash, stored. repeat split; [|done].
    unfold HashPassword in Hhash.
    rewrite isEmpty_false in Hhash by done.
    destruct (len (r_Password req) >? 72); [discriminate|].
    by destruct (bcrypt_GenerateFromPassword salt (r_Password req)).
Qed.

(** X15: who has registered can log in.  Let [Register] succeed, let the
    store return under the stored e-mail what [Create] stored, with the
    e-mail and the hash it was given and marked active, let the hash made
    from the password verify it, and let the service be able to issue
    tokens.  Then [Login] with the password of the registration and with
    any non-empty spelling of the e-mail that lower-cases and trims to the
    same text succeeds and returns the record [Register] returned. *)
Theorem X15_registered_can_login (s : AuthService) (repo repo' : R)
    (now now' : gotime.Time) (id : UUID) (salt : string)
    (req : RegisterRequest) (u : User) (email : string) :
  Register s repo now id salt req = (repo', Ok u) ->
  (forall user stored,
      Create repo user = (repo', stored, None) ->
      GetByEmail repo' (Email user) = Ok stored
      /\ Email stored = Email user
      /\ PasswordHash stored = PasswordHash user
      /\ IsActive stored = true) ->
  (forall hash,
      bcrypt_GenerateFromPassword salt (r_Password req) = Ok hash ->
      bcrypt_CompareHashAndPassword hash (r_Password req) = true) ->
  jwtSecret s <> EmptyString ->
  0 < accessTokenDuration s -> 0 < refreshTokenDuration s ->
  uuid_String (ID u) <> EmptyString ->
  email <> EmptyString ->
  ToLower (TrimSpace email) = ToLower (TrimSpace (r_Email req)) ->
  exists resp,
    Login s repo' now' email (r_Password req) = Ok resp
    /\ User_ resp = u.
Proof.
  intros Hreg Hstore Hbcrypt Hsecret Hattl Hrttl Hid He Hsame.
  apply Register_inv in Hreg
    as (Hpw & Hmail & _ & hash & stored & Hhash & Hcreate & ->).
  destruct (Hstore _ _ Hcreate) as (Hget & Hemail & Hph & Hactive).
  cbn [Email PasswordHash registeredUser] in Hget, Hemail, Hph.
  apply (Login_ok s repo' now' email (r_Password req) stored); try done.
  - by rewrite Hsame.
  - unfold ComparePasswords. rewrite Hph. by apply Hbcrypt.
  - rewrite Hemail. by apply ToLower_not_empty.
Qed.

End ServiceFlows.

(** ** The service flows on the store in memory *)

Section ServiceFlowsInMemory.
Import strings models services memory memory_runs.

(** An instance of X8: the refresh token of [john] is no access token. *)
Lemma X8_token_classes_exclusive_witness :
  ValidateAccessToken service [john true] (noon + gotime.Minute)
    refreshToken = Fail InvalidTokenType
  /\ forall u,
       ValidateAccessToken service [john true] (noon + gotime.Minute)
         refreshToken <> Ok u.
Proof.
  destruct (X8_token_classes_exclusive service [john true]
              (noon + gotime.Minute) refreshToken) as [Hwrong Hnever].
  split.
  - eapply Hwrong; [by vm_compute|]. by vm_compute.
  - apply (Hnever [john true] noon refreshed). by vm_compute.
Defined.


(** An instance of X14: the tokens of the login of [john] at noon, used a
    minute later. *)
Lemma X14_login_tokens_work_witness :
  ValidateAccessToken service [john true] (noon + gotime.Minute)
    (AccessToken loggedIn)
  = Ok (set_PasswordHash EmptyString (john true))
  /\ exists r,
       RefreshToken service [john true] (noon + gotime.Minute)
         (models.RefreshToken loggedIn) = Ok r
       /\ utils_jwt.GenerateAccessToken (uuid_String (ID (john true)))
            (Email (john true)) (accessTokenDuration service)
            (jwtSecret service) (noon + gotime.Minute)
          = Ok (rt_AccessToken r).
Proof.
  apply (X14_login_tokens_work service [john true] [john true] noon
           (noon + gotime.Minute) "john.doe@example.com" "SecurePass123!"
           loggedIn (john true));
    first [ discriminate | by vm_compute ].
Defined.

(** An instance of X15: the registration of [request], then a login under
    another spelling of its e-mail. *)
Lemma X15_registered_can_login_witness :
  exists resp,
    Login service registered.1 (noon + gotime.Minute) " A@B.com"
      "Secure123!" = Ok resp
    /\ User_ resp = registered.2.
Proof.
  assert (Register (Ext := externals) service ([] : store) noon
            "6ba7b810-9dad-11d1-80b4-00c04fd430c9" "salt"
            (request (gotime.Date 1990 1 1))
          = (registered.1, Ok registered.2)) as Hreg
    by (vm_compute; reflexivity).
  assert (forall user stored,
            Create ([] : store) user = (registered.1, stored, None) ->
            GetByEmail registered.1 (Email user) = Ok stored
            /\ Email stored = Email user
            /\ PasswordHash stored = PasswordHash user
            /\ IsActive stored = true) as Hstore.
  { intros user stored Hcreate.
    change (Create ([] : store) user) with ([user], user, @None error)
      in Hcreate.
    assert (registered.1
            = [registeredUser (Ext := externals) noon
                 "6ba7b810-9dad-11d1-80b4-00c04fd430c9"
                 "$2a$12$salt$Secure123!" (request (gotime.Date 1990 1 1))])
      as Hone by (vm_compute; reflexivity).
    rewrite Hone in Hcreate |- *.
    injection Hcreate as -> <-. vm_compute. by repeat split. }
  assert (forall hash,
            bcrypt_GenerateFromPassword "salt" "Secure123!" = Ok hash ->
            bcrypt_CompareHashAndPassword hash "Secure123!" = true)
    as Hbcrypt.
  { intros hash Hhash. cbn in Hhash. injection Hhash as <-.
    vm_compute. reflexivity. }
  apply (X15_registered_can_login (Ext := externals) service []
           registered.1 noon (noon + gotime.Minute)
           "6ba7b810-9dad-11d1-80b4-00c04fd430c9" "salt"
           (request (gotime.Date 1990 1 1)) registered.2 " A@B.com"
           Hreg Hstore Hbcrypt).
  - discriminate.
  - reflexivity.
  - reflexivity.
  - vm_compute. discriminate.
  - discriminate.
  - vm_compute. reflexivity.
Defined.

End ServiceFlowsInMemory.

(** ** The client key *)

Section ClientKey.
Import strings strings_split middleware_ip.

Lemma beforeByte_has_no_sep (sep : ascii) (s : string) :
  any (Ascii.eqb sep) (beforeByte sep s) = false.
Proof.
  induction s as [|c s IH]; [done|]. cbn.
  destruct (Ascii.eqb_spec c sep) as [->|Hne]; [done|]. cbn.
  rewrite IH. destruct (Ascii.eqb_spec sep c) as [->|]; [|done].
  by destruct Hne.
Qed.

Lemma trimLeft_any (q : ascii -> bool) (s : string) :
  any q s = false -> any q (trimLeft s) = false.
Proof.
  induction s as [|c s IH]; [done|]. cbn.
  intros [Hc Hs]%orb_false_iff.
  destruct (isSpace c); [by apply IH|]. cbn. by rewrite Hc, Hs.
Qed.

Lemma trimRight_any (q : ascii -> bool) (s : string) :
  any q s = false -> any q (trimRight s) = false.
Proof.
  induction s as [|c s IH]; [done|]. cbn.
  intros [Hc Hs]%orb_false_iff.
  destruct (isSpace c && isEmpty (trimRight s)); [done|]. cbn.
  by rewrite Hc, IH.
Qed.

(** X12: when the header X-Forwarded-For is not empty, the client key is
    made from the text before its first comma alone: two requests whose
    headers agree up to there get the same key, whatever follows the
    comma and whatever X-Real-IP and the socket address are, and the key
    holds no comma. *)
Theorem X12_first_forwarded_entry (SplitHostPort : string -> option string)
    (xff xff' xri xri' addr addr' : string) :
  xff <> EmptyString -> xff' <> EmptyString ->
  beforeByte "," xff = beforeByte "," xff' ->
  getClientIP SplitHostPort xff xri addr
    = getClientIP SplitHostPort xff' xri' addr'
  /\ any (Ascii.eqb ",") (getClientIP SplitHostPort xff xri addr) = false.
Proof.
  intros Hx Hx' Hsame. unfold getClientIP.
  rewrite (isEmpty_false xff), (isEmpty_false xff') by done.
  cbn [negb]. rewrite Hsame. split; [done|].
  apply trimRight_any, trimLeft_any, beforeByte_has_no_sep.
Qed.

(** An instance of X12: two proxy chains with the same first entry. *)
Lemma X12_first_forwarded_entry_witness :
  getClientIP (fun _ => None) " 10.0.0.1 , 172.16.0.1" EmptyString
    "192.168.1.1:12345"
  = getClientIP (fun _ => None) " 10.0.0.1 ,172.16.0.9" "10.9.9.9"
      "192.168.1.2:80"
  /\ any (Ascii.eqb ",")
       (getClientIP (fun _ => None) " 10.0.0.1 , 172.16.0.1" EmptyString
          "192.168.1.1:12345") = false.
Proof.
  apply X12_first_forwarded_entry; first [ discriminate | reflexivity ].
Defined.

End ClientKey.

(** ** The answers of the limiter *)

Section Answers.
Import gotime middleware.

(** X17: what [allow] answers is fit for the response headers.  For a
    window and a limit that are not negative and a table whose budgets are
    in range, the remaining count is between 0 and the limit less one (0
    for the limit 0), it is 0 when the request is refused, and the reset
    time is never before the request, at whatever time the request comes;
    the table [allow] leaves has its budgets in range again. *)
Theorem X17_answer_in_range (rl : RateLimiter) (now : Time) (ip : string) :
  0 <= window rl -> 0 <= limit rl ->
  budgetsInRange rl ->
  let '(allowed, remaining, resetTime) := (allow rl now ip).2 in
  0 <= remaining <= Z.max 0 (limit rl - 1)
  /\ (allowed = false -> remaining = 0)
  /\ now <= resetTime
  /\ budgetsInRange (allow rl now ip).1.
Proof.
  intros Hw Hl Hinv.
  assert (budgetsInRange (allow rl now ip).1) as Hafter
    by (apply (step_budgets rl (Request ip now)); done).
  destruct (allow_unfold rl now ip) as (Hans & _ & _).
  rewrite Hans. clear Hans.
  set (cl := refill rl now (getOrCreate rl now ip)).
  assert (0 <= tokens cl <= limit rl /\ now <= Add (lastReset cl) (window rl))
    as [Hrange Hreset].
  { subst cl. unfold refill, expired, getOrCreate, Add, Sub.
    destruct (clients rl !! ip) as [cl0|] eqn:Hcl0.
    - pose proof (Hinv ip cl0 Hcl0).
      destruct (Z.gtb_spec (now - lastReset cl0) (window rl));
        cbn [tokens lastReset]; lia.
    - cbn [tokens lastReset].
      destruct (Z.gtb_spec (now - now) (window rl));
        cbn [tokens lastReset]; lia. }
  destruct (Z.gtb_spec (tokens cl) 0);
    (split; [lia|split; [intros; done || lia|split; [done|exact Hafter]]]).
Qed.

(** An instance of X17: the request after the budget is used up. *)
Lemma X17_answer_in_range_witness :
  let rl :=
    run (NewRateLimiter 1 (100 * Millisecond))
      [Request "10.0.0.1" memory.noon] in
  let '(allowed, remaining, resetTime) :=
    (allow rl (memory.noon + Millisecond) "10.0.0.1").2 in
  0 <= remaining <= Z.max 0 (1 - 1)
  /\ (allowed = false -> remaining = 0)
  /\ memory.noon + Millisecond <= resetTime
  /\ budgetsInRange (allow rl (memory.noon + Millisecond) "10.0.0.1").1.
Proof.
  intros rl.
  apply (X17_answer_in_range rl (memory.noon + Millisecond) "10.0.0.1").
  - by vm_compute.
  - by vm_compute.
  - apply run_budgets; [by vm_compute|].
    intros k cl Hcl. cbn in Hcl. by rewrite lookup_empty in Hcl.
Defined.

End Answers.

(** ** Registration and the store *)

Section RegistrationStore.
Import strings models services unicode.
Context `{Ext : Externals} `{Txt : unicode.Strings}
  {R : Type} `{Repo : !UserRepository R}.

(** The required fields of a request that passed
    [validateRegistrationRequest]. *)
Lemma validateRegistrationRequest_fields (now : gotime.Time)
    (req : RegisterRequest) :
  validateRegistrationRequest now req = None -> requiredFields req.
Proof.
  unfold validateRegistrationRequest, requiredFields.
  destruct (r_Email req); [discriminate|].
  destruct (r_Password req); [discriminate|].
  destruct (r_FirstName req); [discriminate|].
  destruct (r_LastName req); [discriminate|]. cbn [isEmpty].
  destruct (gotime.IsZero (r_DateOfBirth req)); [discriminate|].
  destruct (r_AddressLine1 req); [discriminate|].
  destruct (r_City req); [discriminate|].
  destruct (r_Postcode req); [discriminate|].
  destruct (r_Country req); [discriminate|].
  by repeat split.
Qed.

(** X16: [Register] reaches the store's [Create] only with a request
    whose required fields are present, that passed the e-mail and
    password checks and whose e-mail as typed the store did not find.  The
    record it hands to [Create] has the fresh identifier, the e-mail of
    the request as [strings.ToLower] and [strings.TrimSpace] leave it,
    the hash bcrypt made of the password, the personal data of the
    request, the active flag set and the KYC status pending; [Register]
    fails when [Create] does and returns the record [Create] left without
    its hash otherwise.  In every other case [Register] fails and returns
    the store as it was. *)
Theorem X16_register_guards_the_store (s : AuthService) (repo repo' : R)
    (now : gotime.Time) (id : UUID) (salt : string)
    (req : RegisterRequest) (r : result error User) :
  Register s repo now id salt req = (repo', r) ->
  (repo' = repo /\ exists e, r = Fail e)
  \/ (requiredFields req
      /\ validateEmail (r_Email req) = None
      /\ validatePassword (r_Password req) = None
      /\ (exists e, GetByEmail repo (r_Email req) = Fail e)
      /\ exists hash user stored err,
           bcrypt_GenerateFromPassword salt (r_Password req) = Ok hash
           /\ Create repo user = (repo', stored, err)
           /\ ID user = id
           /\ Email user = ToLower (TrimSpace (r_Email req))
           /\ PasswordHash user = hash
           /\ IsActive user = true
           /\ KYCStatus user = "pending"
           /\ KYCVerifiedAt user = None
           /\ personalData user = requestData req
           /\ r = match err with
                  | Some e =>
                      Fail (Errorf ("failed to create user: "
                                    +:+ errorMessage e))
                  | None => Ok (set_PasswordHash EmptyString stored)
                  end).
Proof.
  unfold Register.
  destruct (validateRegistrationRequest now req) eqn:Hreq;
    [intros [= <- <-]; left; eauto|].
  destruct (validateEmail (r_Email req));
    [intros [= <- <-]; left; eauto|].
  destruct (validatePassword (r_Password req)) eqn:Hpw;
    [intros [= <- <-]; left; eauto|].
  destruct (GetByEmail repo (r_Email req)) as [|e];
    [intros [= <- <-]; left; eauto|].
  rewrite (hash_after_validation salt _ Hpw).
  destruct (bcrypt_GenerateFromPassword salt (r_Password req))
    as [hash|]; [|intros [= <- <-]; left; eauto].
  fold (registeredUser now id hash req).
  destruct (Create repo (registeredUser now id hash req))
    as [[repo1 stored] err] eqn:Hcreate.
  intros Hrun. right.
  split; [by eapply validateRegistrationRequest_fields|].
  split; [done|]. split; [done|]. split; [by eexists|].
  exists hash, (registeredUser now id hash req), stored, err.
  split; [done|].
  destruct err; injection Hrun as <- <-; by repeat split.
Qed.

End RegistrationStore.

Section RegistrationInMemory.
Import models memory memory_runs.

(** An instance of X16: the registration on the store in memory. *)
Lemma X16_register_guards_the_store_witness :
  exists hash user stored,
    bcrypt_GenerateFromPassword (Externals := memory.externals)
      "salt" "Secure123!" = Ok hash
    /\ Create ([] : memory.store) user
       = (memory_runs.registered.1, stored, None)
    /\ ID user = "6ba7b810-9dad-11d1-80b4-00c04fd430c9"
    /\ Email user = "a@b.com"
    /\ PasswordHash user = "$2a$12$salt$Secure123!"
    /\ memory_runs.registered.2 = set_PasswordHash EmptyString stored.
Proof.
  destruct (X16_register_guards_the_store (Ext := memory.externals)
              (Txt := memory.text)
              memory.service ([] : memory.store) memory_runs.registered.1
              memory.noon "6ba7b810-9dad-11d1-80b4-00c04fd430c9" "salt"
              (memory.request (gotime.Date 1990 1 1))
              (Ok memory_runs.registered.2))
    as [[_ [e He]]|(_ & _ & _ & _ & hash & user & stored & err & Hhash
                    & Hcreate & Hid & Hemail & Hph & _ & _ & _ & _ & Hr)].
  - vm_compute. reflexivity.
  - discriminate He.
  - destruct err as [err|]; [by vm_compute in Hr|].
    exists hash, user, stored.
    vm_compute in Hhash. injection Hhash as <-.
    split; [by vm_compute|]. split; [exact Hcreate|]. split; [exact Hid|].
    split; [rewrite Hemail; by vm_compute|]. split; [exact Hph|].
    vm_compute in Hr. vm_compute.
    exact (f_equal (fun r => match r with Ok u => u | Fail _ => stored end)
             Hr).
Defined.

End RegistrationInMemory.
